(** * TaskMaster: the task/collaboration core, embedded and verified

    The development follows the repository layout:

    - [Js]          string helpers of the JavaScript runtime the code calls
                    ([trim], [split(',')], [join(',')], [toLowerCase]);
    - [Realtime]    the socket registry [userSocketsMap] of backend/server.js;
    - [QueryParams] [parseQueryParamArray] / [serializeQueryParamArray] of the
                    task-list view;
    - [Store]       the notification slice of the zustand store
                    (vitereact/src/store/main.tsx);
    - [Db]          the relational schema of backend/db.sql with its keys,
                    defaults and referential actions;
    - [Auth]        POST /api/auth/register of backend/server.js;
    - [Engine]      the task, comment and list operations that run on [Db];
    - [JsText]      further string and array primitives;
    - [Http]        [auth_middleware], [require_manager_role] and
                    POST /api/auth/login of backend/server.js;
    - [AppStore]    the task, comment and websocket slices of the store;
    - [TaskListView], [TaskForms], [RegisterForm]
                    the handlers of the views that call the store and the API;
    - [Constraints] the keys and foreign keys of backend/db.sql as predicates.

    The model is given first; the theorems about it follow. *)

From Stdlib Require Import ZArith Ascii String List Lia.
From stdpp Require Import base gmap sets list strings.

Local Open Scope string_scope.

(* ===================================================================== *)
(** ** JavaScript string primitives *)
(* ===================================================================== *)

Module Js.

(** A string is its sequence of code units; the model keeps the code
    units below 256, which is where every separator and every white
    space character used below lives. *)

(** ECMAScript WhiteSpace and LineTerminator code units below 256:
    TAB, LF, VT, FF, CR, SP and NBSP. *)
Definition is_white_space (c : ascii) : bool :=
  let n := nat_of_ascii c in
  (Nat.leb 9 n && Nat.leb n 13) || Nat.eqb n 32 || Nat.eqb n 160.

Definition comma : ascii := ","%char.

Fixpoint trimStart (s : string) : string :=
  match s with
  | String c s' => if is_white_space c then trimStart s' else s
  | EmptyString => EmptyString
  end.

Fixpoint trimEnd (s : string) : string :=
  match s with
  | String c s' =>
      match trimEnd s' with
      | EmptyString => if is_white_space c then EmptyString
                       else String c EmptyString
      | r => String c r
      end
  | EmptyString => EmptyString
  end.

(** [String.prototype.trim] *)
Definition trim (s : string) : string := trimEnd (trimStart s).

(** [s.split(',')]: the pieces between the commas; the empty string
    splits into one empty piece. *)
Fixpoint split_comma (s : string) : list string :=
  match s with
  | EmptyString => [EmptyString]
  | String c s' =>
      if Ascii.eqb c comma then EmptyString :: split_comma s'
      else match split_comma s' with
           | piece :: rest => String c piece :: rest
           | [] => [String c EmptyString]
           end
  end.

(** [arr.join(',')] *)
Fixpoint join_comma (arr : list string) : string :=
  match arr with
  | [] => EmptyString
  | [s] => s
  | s :: rest => s ++ String comma (join_comma rest)
  end.

(** [Boolean(s)] for a string: the empty string is the only falsy one. *)
Definition truthy (s : string) : bool :=
  match s with EmptyString => false | _ => true end.

Definition lower_char (c : ascii) : ascii :=
  let n := nat_of_ascii c in
  if Nat.leb 65 n && Nat.leb n 90 then ascii_of_nat (n + 32) else c.

(** [String.prototype.toLowerCase] on the letters A-Z. *)
Fixpoint toLowerCase (s : string) : string :=
  match s with
  | EmptyString => EmptyString
  | String c s' => String (lower_char c) (toLowerCase s')
  end.

Fixpoint has_comma (s : string) : bool :=
  match s with
  | EmptyString => false
  | String c s' => Ascii.eqb c comma || has_comma s'
  end.

End Js.

(* ===================================================================== *)
(** ** Realtime channel: the connection registry (backend/server.js) *)
(* ===================================================================== *)

Module Realtime.

(** [socket.user.user_id] as the JWT middleware left it: absent, or a
    string (the empty string is falsy). [socket.id] is a string. *)
Inductive event : Type :=
| Connect (user_id : option string) (socket_id : string)
| Disconnect (user_id : string) (socket_id : string).

(** [io.on('connection', ...)]: a socket without a usable user id is
    disconnected at once and never tracked. *)
Definition on_connection (user_id : option string) (socket_id : string)
    (userSocketsMap : gmap string (gset string)) : gmap string (gset string) :=
  match user_id with
  | None => userSocketsMap
  | Some uid =>
      if Js.truthy uid then
        let userSockets := default ∅ (userSocketsMap !! uid) in
        <[uid := userSockets ∪ {[socket_id]}]> userSocketsMap
      else userSocketsMap
  end.

(** [socket.on('disconnect', ...)], closed over the user id and socket
    id of the connection it was registered for. *)
Definition on_disconnect (user_id socket_id : string)
    (userSocketsMap : gmap string (gset string)) : gmap string (gset string) :=
  match userSocketsMap !! user_id with
  | Some sockets =>
      let sockets' := sockets ∖ {[socket_id]} in
      if decide (size sockets' = 0) then delete user_id userSocketsMap
      else <[user_id := sockets']> userSocketsMap
  | None => userSocketsMap
  end.

Definition step (m : gmap string (gset string)) (e : event)
    : gmap string (gset string) :=
  match e with
  | Connect uid sid => on_connection uid sid m
  | Disconnect uid sid => on_disconnect uid sid m
  end.

(** The registry after a trace of events, starting from [new Map()]. *)
Definition run (tr : list event) : gmap string (gset string) :=
  fold_left step tr ∅.

(** Reference semantics of "the sockets of user [u] that are connected
    right now": a socket counts from its accepted connection until its
    disconnect. *)
Definition connected_step (live : string → gset string) (e : event)
    : string → gset string :=
  match e with
  | Connect (Some uid) sid =>
      if Js.truthy uid
      then λ u, if decide (u = uid) then live u ∪ {[sid]} else live u
      else live
  | Connect None _ => live
  | Disconnect uid sid =>
      λ u, if decide (u = uid) then live u ∖ {[sid]} else live u
  end.

Definition connected (tr : list event) : string → gset string :=
  fold_left connected_step tr (λ _, ∅).

(** The registry [m] mirrors the per-user sets [live]: an entry exists
    exactly for the users whose set is not empty, and it holds that set. *)
Definition mirrors (m : gmap string (gset string)) (live : string → gset string)
    : Prop :=
  ∀ u, m !! u = if decide (live u = ∅) then None else Some (live u).

End Realtime.

(* ===================================================================== *)
(** ** Query-string arrays (task-list view) *)
(* ===================================================================== *)

Module QueryParams.

(** [parseQueryParamArray]: [param] is [string | null]; [!param] holds
    for [null] and for the empty string. *)
Definition parseQueryParamArray (param : option string) : list string :=
  match param with
  | None => []
  | Some s =>
      if Js.truthy s
      then List.filter Js.truthy (List.map Js.trim (Js.split_comma s))
      else []
  end.

Definition serializeQueryParamArray (arr : list string) : string :=
  Js.join_comma arr.

(** The strings the round trip is claimed for: not empty once trimmed,
    and free of commas. *)
Definition survives_trim (s : string) : Prop :=
  Js.trim s ≠ "" ∧ Js.has_comma s = false.

(** The strings the round trip holds for: not empty, without leading or
    trailing white space, and free of commas. *)
Definition plain_item (s : string) : Prop :=
  s ≠ "" ∧ Js.trim s = s ∧ Js.has_comma s = false.

End QueryParams.

(* ===================================================================== *)
(** ** Client store: the notification slice (store/main.tsx) *)
(* ===================================================================== *)

Module Store.

Inductive NotificationType : Type :=
| assignment | comment | status_update | reminder.

Record Notification : Type := mkNotification {
  notification_id : Z;
  type : NotificationType;
  message : string;
  reference_id : Z;
  created_at : string;
  is_read : bool
}.

(** The fields of [NotificationsState] that the notification actions
    read or write; zustand's [set] merges, so every other field of the
    store keeps its value. *)
Record NotificationsState : Type := mkState {
  notifications : list Notification;
  unread_count : Z
}.

Definition initial : NotificationsState :=
  {| notifications := []; unread_count := 0 |}.

(** [{ ...n, is_read: true }] *)
Definition with_is_read_true (n : Notification) : Notification :=
  {| notification_id := notification_id n;
     type := type n;
     message := message n;
     reference_id := reference_id n;
     created_at := created_at n;
     is_read := true |}.

(** [list.filter((n) => !n.is_read).length] *)
Definition count_unread (l : list Notification) : Z :=
  Z.of_nat (length (List.filter (λ n, negb (is_read n)) l)).

Definition set_notifications (new_notifications : list Notification)
    (state : NotificationsState) : NotificationsState :=
  let unread := count_unread new_notifications in
  {| notifications := new_notifications; unread_count := unread |}.

Definition add_notification (notification : Notification)
    (state : NotificationsState) : NotificationsState :=
  let exists_ :=
    List.find (λ n, notification_id n =? notification_id notification)%Z
              (notifications state) in
  match exists_ with
  | Some _ => state
  | None =>
      let newNotifications := notification :: notifications state in
      let newUnreadCount :=
        if is_read notification then unread_count state
        else (unread_count state + 1)%Z in
      {| notifications := newNotifications; unread_count := newUnreadCount |}
  end.

Definition mark_as_read (id : Z) (state : NotificationsState)
    : NotificationsState :=
  let newNotifications :=
    List.map (λ n, if (notification_id n =? id)%Z
                   then with_is_read_true n else n)
             (notifications state) in
  let newUnreadCount := count_unread newNotifications in
  {| notifications := newNotifications; unread_count := newUnreadCount |}.

Definition mark_all_as_read (state : NotificationsState) : NotificationsState :=
  let allRead := List.map with_is_read_true (notifications state) in
  {| notifications := allRead; unread_count := 0 |}.

Definition set_unread_count (count : Z) (state : NotificationsState)
    : NotificationsState :=
  {| notifications := notifications state; unread_count := count |}.

(** The four actions that maintain the unread counter. *)
Inductive action : Type :=
| SetNotifications (l : list Notification)
| AddNotification (n : Notification)
| MarkAsRead (id : Z)
| MarkAllAsRead.

Definition dispatch (state : NotificationsState) (a : action)
    : NotificationsState :=
  match a with
  | SetNotifications l => set_notifications l state
  | AddNotification n => add_notification n state
  | MarkAsRead id => mark_as_read id state
  | MarkAllAsRead => mark_all_as_read state
  end.

(** The counter agrees with the list. *)
Definition counter_consistent (state : NotificationsState) : Prop :=
  unread_count state = count_unread (notifications state).

(** How many entries of the list carry the id. *)
Definition occurrences (id : Z) (l : list Notification) : nat :=
  length (List.filter (λ n, notification_id n =? id)%Z l).

(** [n'] is [n] with at most the read flag changed, and the flag is set
    exactly when [n] carries the id [id]. *)
Definition marked (id : Z) (n n' : Notification) : Prop :=
  notification_id n' = notification_id n
  ∧ type n' = type n
  ∧ message n' = message n
  ∧ reference_id n' = reference_id n
  ∧ created_at n' = created_at n
  ∧ is_read n' = (if (notification_id n =? id)%Z then true else is_read n).

Definition mark (id : Z) (n : Notification) : Notification :=
  if (notification_id n =? id)%Z then with_is_read_true n else n.

Definition sample_read : Notification :=
  mkNotification 303 status_update "Task status changed to In Progress." 102
                 "2024-06-10T14:31:00Z" true.

Definition sample_unread : Notification :=
  mkNotification 301 assignment "You have been assigned to a task." 101
                 "2024-06-05T09:01:00Z" false.

End Store.

(* ===================================================================== *)
(** ** Entity store: the schema of backend/db.sql *)
(* ===================================================================== *)

Module Db.

(** One module per table, so that columns keep their names. BIGINT
    columns are [Z], TEXT columns are [string], nullable columns are
    [option], the JSON array [tags] is a list of strings and the JSON
    object [notification_settings] is a record. *)

Record NotificationSettings : Type := mkSettings {
  in_app : bool;
  email : bool
}.

Module User.
Record row : Type := mk {
  user_id : Z;
  email : string;
  password_hash : string;
  name : string;
  role : string;
  created_at : string;
  updated_at : string;
  notification_settings : NotificationSettings
}.
End User.

Module Task.
Record row : Type := mk {
  task_id : Z;
  creator_user_id : Z;
  title : string;
  description : option string;
  due_date : option string;
  priority : string;
  status : string;
  created_at : string;
  updated_at : string;
  tags : list string
}.
End Task.

Module Assignee.
Record row : Type := mk {
  task_id : Z;
  user_id : Z;
  assigned_at : string
}.
End Assignee.

Module Comment.
Record row : Type := mk {
  comment_id : Z;
  task_id : Z;
  author_user_id : Z;
  body : string;
  created_at : string;
  updated_at : option string;
  parent_comment_id : option Z
}.
End Comment.

Module Notification.
Record row : Type := mk {
  notification_id : Z;
  user_id : Z;
  type : string;
  reference_id : option Z;
  message : string;
  is_read : bool;
  created_at : string
}.
End Notification.

Module Reminder.
Record row : Type := mk {
  reminder_id : Z;
  task_id : Z;
  remind_at : string;
  preset : string;
  created_at : string
}.
End Reminder.

(** The tables the task and comment operations touch. Rows are kept in
    insertion order. *)
Record database : Type := mkDatabase {
  users : list User.row;
  tasks : list Task.row;
  task_assignees : list Assignee.row;
  task_comments : list Comment.row;
  notifications : list Notification.row;
  task_reminders : list Reminder.row
}.

(** Column defaults of [tasks]. *)
Definition default_priority : string := "Medium".
Definition default_status : string := "To Do".
Definition default_tags : list string := [].

Definition user_exists (db : database) (uid : Z) : bool :=
  existsb (λ u, User.user_id u =? uid)%Z (users db).

Definition task_exists (db : database) (tid : Z) : bool :=
  existsb (λ t, Task.task_id t =? tid)%Z (tasks db).

Definition find_task (db : database) (tid : Z) : option Task.row :=
  List.find (λ t, Task.task_id t =? tid)%Z (tasks db).

Definition find_user (db : database) (uid : Z) : option User.row :=
  List.find (λ u, User.user_id u =? uid)%Z (users db).

Definition find_comment (db : database) (cid : Z) : option Comment.row :=
  List.find (λ c, Comment.comment_id c =? cid)%Z (task_comments db).

(** [SELECT ... FROM task_assignees WHERE task_id = t AND user_id = u] *)
Definition is_assigned (rows : list Assignee.row) (tid uid : Z) : bool :=
  existsb (λ a, (Assignee.task_id a =? tid)%Z && (Assignee.user_id a =? uid)%Z) rows.

(** The values of an [INSERT INTO tasks]: a column with a default may be
    left out ([None]) and then takes the default. *)
Record task_values : Type := mkTaskValues {
  v_task_id : Z;
  v_creator_user_id : Z;
  v_title : string;
  v_description : option string;
  v_due_date : option string;
  v_priority : option string;
  v_status : option string;
  v_created_at : string;
  v_updated_at : string;
  v_tags : option (list string)
}.

Definition task_of_values (v : task_values) : Task.row :=
  {| Task.task_id := v_task_id v;
     Task.creator_user_id := v_creator_user_id v;
     Task.title := v_title v;
     Task.description := v_description v;
     Task.due_date := v_due_date v;
     Task.priority := default default_priority (v_priority v);
     Task.status := default default_status (v_status v);
     Task.created_at := v_created_at v;
     Task.updated_at := v_updated_at v;
     Task.tags := default default_tags (v_tags v) |}.

Definition with_tasks (db : database) (l : list Task.row) : database :=
  {| users := users db; tasks := l; task_assignees := task_assignees db;
     task_comments := task_comments db; notifications := notifications db;
     task_reminders := task_reminders db |}.

Definition with_task_assignees (db : database) (l : list Assignee.row) : database :=
  {| users := users db; tasks := tasks db; task_assignees := l;
     task_comments := task_comments db; notifications := notifications db;
     task_reminders := task_reminders db |}.

Definition with_users (db : database) (l : list User.row) : database :=
  {| users := l; tasks := tasks db; task_assignees := task_assignees db;
     task_comments := task_comments db; notifications := notifications db;
     task_reminders := task_reminders db |}.

(** [INSERT INTO tasks]: primary key on [task_id], foreign key from
    [creator_user_id] to [users]. [None] is a constraint violation. *)
Definition insert_task (v : task_values) (db : database) : option database :=
  if task_exists db (v_task_id v) then None
  else if negb (user_exists db (v_creator_user_id v)) then None
  else Some (with_tasks db (tasks db ++ [task_of_values v])).

(** [INSERT INTO task_assignees]: composite primary key
    [(task_id, user_id)], foreign keys to [tasks] and [users]. *)
Definition insert_assignee (a : Assignee.row) (db : database) : option database :=
  if is_assigned (task_assignees db) (Assignee.task_id a) (Assignee.user_id a) then None
  else if negb (task_exists db (Assignee.task_id a)) then None
  else if negb (user_exists db (Assignee.user_id a)) then None
  else Some (with_task_assignees db (task_assignees db ++ [a])).

(** [ON DELETE SET NULL] on [task_comments.parent_comment_id]: a
    surviving row that pointed at a deleted comment loses the pointer
    and keeps every other column. *)
Definition set_parent_null (dead : list Z) (c : Comment.row) : Comment.row :=
  match Comment.parent_comment_id c with
  | Some p =>
      if existsb (Z.eqb p) dead
      then {| Comment.comment_id := Comment.comment_id c;
              Comment.task_id := Comment.task_id c;
              Comment.author_user_id := Comment.author_user_id c;
              Comment.body := Comment.body c;
              Comment.created_at := Comment.created_at c;
              Comment.updated_at := Comment.updated_at c;
              Comment.parent_comment_id := None |}
      else c
  | None => c
  end.

(** [DELETE FROM task_comments WHERE comment_id = cid] with its
    referential action. *)
Definition delete_comment_row (cid : Z) (db : database) : database :=
  {| users := users db; tasks := tasks db; task_assignees := task_assignees db;
     task_comments :=
       List.map (set_parent_null [cid])
         (List.filter (λ c, negb (Comment.comment_id c =? cid)%Z) (task_comments db));
     notifications := notifications db;
     task_reminders := task_reminders db |}.

(** [DELETE FROM tasks WHERE task_id = tid] with its referential
    actions: [ON DELETE CASCADE] from [task_assignees], [task_comments]
    and [task_reminders]; the comments that go trigger [SET NULL] on
    the rows that pointed at them; [notifications.reference_id] carries
    no foreign key, so that table is not visited. *)
Definition delete_task_row (tid : Z) (db : database) : database :=
  let dead :=
    List.map Comment.comment_id
      (List.filter (λ c, (Comment.task_id c =? tid)%Z) (task_comments db)) in
  {| users := users db;
     tasks := List.filter (λ t, negb (Task.task_id t =? tid)%Z) (tasks db);
     task_assignees :=
       List.filter (λ a, negb (Assignee.task_id a =? tid)%Z) (task_assignees db);
     task_comments :=
       List.map (set_parent_null dead)
         (List.filter (λ c, negb (Comment.task_id c =? tid)%Z) (task_comments db));
     notifications := notifications db;
     task_reminders :=
       List.filter (λ r, negb (Reminder.task_id r =? tid)%Z) (task_reminders db) |}.

(** [INSERT INTO users]: primary key on [user_id], [UNIQUE] on
    [email]. *)
Definition insert_user (u : User.row) (db : database) : option database :=
  if user_exists db (User.user_id u) then None
  else if existsb (λ r, String.eqb (User.email r) (User.email u)) (users db) then None
  else Some (with_users db (users db ++ [u])).

(** The composite primary key of [task_assignees]. *)
Definition assignee_key (a : Assignee.row) : Z * Z :=
  (Assignee.task_id a, Assignee.user_id a).

Definition assignee_rows (tid uid : Z) (db : database) : list Assignee.row :=
  List.filter
    (λ a, (Assignee.task_id a =? tid)%Z && (Assignee.user_id a =? uid)%Z)
    (task_assignees db).

(** [c'] is [c] with every column kept, except that a parent pointer
    into [dead] has become null. *)
Definition orphaned (dead : list Z) (c c' : Comment.row) : Prop :=
  Comment.comment_id c' = Comment.comment_id c
  ∧ Comment.task_id c' = Comment.task_id c
  ∧ Comment.author_user_id c' = Comment.author_user_id c
  ∧ Comment.body c' = Comment.body c
  ∧ Comment.created_at c' = Comment.created_at c
  ∧ Comment.updated_at c' = Comment.updated_at c
  ∧ Comment.parent_comment_id c' =
      match Comment.parent_comment_id c with
      | Some p => if bool_decide (p ∈ dead) then None else Some p
      | None => None
      end.

End Db.

(* ===================================================================== *)
(** ** The seed rows of backend/db.sql *)
(* ===================================================================== *)

Module Seed.
Import Db.

Definition dq : string := String (ascii_of_nat 34) EmptyString.

(** [prefix "title" suffix] with the double quotes of the SQL text. *)
Definition msg (prefix title suffix : string) : string :=
  prefix ++ dq ++ title ++ dq ++ suffix.

Definition users : list User.row :=
  [ User.mk 1 "alice@example.com" "hashed_pw_alice" "Alice Johnson" "manager"
      "2024-06-01T08:00:00Z" "2024-06-01T08:00:00Z" (mkSettings true false);
    User.mk 2 "bob@example.com" "hashed_pw_bob" "Bob Smith" "regular"
      "2024-06-02T09:30:00Z" "2024-06-02T09:30:00Z" (mkSettings true true);
    User.mk 3 "carol@example.com" "hashed_pw_carol" "Carol Williams" "regular"
      "2024-06-02T10:15:00Z" "2024-06-02T10:15:00Z" (mkSettings false true);
    User.mk 4 "david@example.com" "hashed_pw_david" "David Brown" "regular"
      "2024-06-03T11:45:00Z" "2024-06-03T11:45:00Z" (mkSettings true true);
    User.mk 5 "eve@example.com" "hashed_pw_eve" "Eve Davis" "manager"
      "2024-06-04T07:10:00Z" "2024-06-04T07:10:00Z" (mkSettings true false) ].

Definition tasks : list Task.row :=
  [ Task.mk 101 1 "Design new feature UI"
      (Some "Create wireframes and mockups for the new dashboard feature.")
      (Some "2024-06-30T17:00:00Z") "High" "To Do"
      "2024-06-05T08:00:00Z" "2024-06-05T08:00:00Z" ["urgent"; "frontend"; "clientA"];
    Task.mk 102 2 "Fix login bug"
      (Some "Users cannot login when using special characters in password.")
      (Some "2024-06-15T12:00:00Z") "Medium" "In Progress"
      "2024-06-06T09:00:00Z" "2024-06-10T14:30:00Z" ["bug"; "backend"];
    Task.mk 103 3 "Write API documentation"
      (Some "Document all endpoints for TaskMaster API v1.")
      None "Low" "To Do"
      "2024-06-07T10:00:00Z" "2024-06-07T10:00:00Z" ["documentation"];
    Task.mk 104 1 "Set up testing environment"
      (Some "Prepare integration tests for critical workflows.")
      (Some "2024-07-01T09:00:00Z") "Medium" "To Do"
      "2024-06-08T11:00:00Z" "2024-06-08T11:00:00Z" ["testing"; "ci"];
    Task.mk 105 5 "Plan quarterly roadmap"
      (Some "Create roadmap presentation for next quarter.")
      (Some "2024-06-20T15:00:00Z") "High" "In Progress"
      "2024-06-09T12:00:00Z" "2024-06-11T10:00:00Z" ["planning"; "management"] ].

Definition task_assignees : list Assignee.row :=
  [ Assignee.mk 101 2 "2024-06-05T09:00:00Z";
    Assignee.mk 101 3 "2024-06-05T09:05:00Z";
    Assignee.mk 102 2 "2024-06-06T09:10:00Z";
    Assignee.mk 103 3 "2024-06-07T10:15:00Z";
    Assignee.mk 104 4 "2024-06-08T11:15:00Z";
    Assignee.mk 105 5 "2024-06-09T12:05:00Z";
    Assignee.mk 105 1 "2024-06-09T12:10:00Z" ].

Definition task_comments : list Comment.row :=
  [ Comment.mk 201 101 2 "I started working on the wireframes, will share soon."
      "2024-06-05T10:00:00Z" None None;
    Comment.mk 202 101 3 "Please consider accessibility guidelines in the designs."
      "2024-06-05T11:30:00Z" None (Some 201%Z);
    Comment.mk 203 102 2 "Bug reproduced, looking into root cause."
      "2024-06-06T10:00:00Z" (Some "2024-06-06T12:00:00Z") None;
    Comment.mk 204 105 5 "We should align this with marketing team."
      "2024-06-09T13:00:00Z" None None;
    Comment.mk 205 101 1 "Make sure client is consulted before finalizing UI."
      "2024-06-05T12:00:00Z" None None;
    Comment.mk 206 103 3 "Started drafting intro section."
      "2024-06-07T12:00:00Z" None None;
    Comment.mk 207 104 4 "CI pipeline integration pending."
      "2024-06-08T12:30:00Z" None None ].

Definition notifications : list Notification.row :=
  [ Notification.mk 301 2 "task_assignment" (Some 101%Z)
      (msg "You have been assigned to task " "Design new feature UI" ".")
      false "2024-06-05T09:01:00Z";
    Notification.mk 302 3 "task_assignment" (Some 101%Z)
      (msg "You have been assigned to task " "Design new feature UI" ".")
      false "2024-06-05T09:05:00Z";
    Notification.mk 303 2 "task_update" (Some 102%Z)
      (msg "Task " "Fix login bug" " status changed to In Progress.")
      true "2024-06-10T14:31:00Z";
    Notification.mk 304 5 "new_comment" (Some 204%Z)
      (msg "New comment on task " "Plan quarterly roadmap" ".")
      false "2024-06-09T13:05:00Z";
    Notification.mk 305 1 "reminder" (Some 101%Z)
      (msg "Reminder: Task " "Design new feature UI" " is due soon.")
      false "2024-06-29T17:00:00Z" ].

Definition task_reminders : list Reminder.row :=
  [ Reminder.mk 401 101 "2024-06-30T16:00:00Z" "1_hour_before" "2024-06-05T08:05:00Z";
    Reminder.mk 402 102 "2024-06-14T12:00:00Z" "1_day_before" "2024-06-06T09:10:00Z";
    Reminder.mk 403 105 "2024-06-20T14:00:00Z" "1_hour_before" "2024-06-09T12:15:00Z" ].

Definition db : database :=
  mkDatabase users tasks task_assignees task_comments notifications task_reminders.

End Seed.

(* ===================================================================== *)
(** ** POST /api/auth/register (backend/server.js) *)
(* ===================================================================== *)

Module Auth.

(** [req.body] after destructuring: a field is absent or a string. *)
Record register_body : Type := mkBody {
  email : option string;
  password : option string;
  name : option string
}.

(** What the handler draws from its environment: [generate_id()],
    [hash_password], [now_iso()] and [generate_jwt]. The identifier is
    taken as the key value of the [users.user_id] column. *)
Record env : Type := mkEnv {
  generate_id : Z;
  hash_password : string → string;
  now_iso : string;
  generate_jwt : Z → string → string → string → string
}.

Record profile : Type := mkProfile {
  p_user_id : Z;
  p_email : string;
  p_name : string;
  p_role : string;
  p_notification_settings : Db.NotificationSettings
}.

Inductive payload : Type :=
| ErrorBody (error : string)
| Registered (token : string) (user : profile).

Record response : Type := mkResponse {
  status : Z;
  body : payload
}.

(** [!x] for a destructured body field. *)
Definition missing (x : option string) : bool :=
  match x with
  | Some s => negb (Js.truthy s)
  | None => true
  end.

Definition register (e : env) (req : register_body) (db : Db.database)
    : response * Db.database :=
  if missing (email req) || missing (password req) || missing (name req)
  then (mkResponse 400 (ErrorBody "email, password and name are required"), db)
  else
    let email_ := default "" (email req) in
    let password_ := default "" (password req) in
    let name_ := default "" (name req) in
    let existing :=
      List.filter (λ u, String.eqb (Db.User.email u) (Js.toLowerCase email_))
                  (Db.users db) in
    if (0 <? length existing)%nat
    then (mkResponse 400 (ErrorBody "Email already registered"), db)
    else
      let user_id := generate_id e in
      let password_hash := hash_password e password_ in
      let now := now_iso e in
      let notification_settings := Db.mkSettings true false in
      match
        Db.insert_user
          (Db.User.mk user_id (Js.toLowerCase email_) password_hash name_
             "regular" now now notification_settings) db
      with
      | Some db' =>
          let token := generate_jwt e user_id email_ "regular" name_ in
          (mkResponse 200
             (Registered token
                (mkProfile user_id email_ name_ "regular" (Db.mkSettings true false))),
           db')
      | None =>
          (mkResponse 500 (ErrorBody "Internal server error"), db)
      end.

(** The stored addresses are in lower case. *)
Definition emails_lowercase (db : Db.database) : Prop :=
  Forall (λ u, Js.toLowerCase (Db.User.email u) = Db.User.email u) (Db.users db).

Definition sample_env : env :=
  mkEnv 6 (λ p, "hashed:" ++ p) "2024-06-12T09:00:00Z"
        (λ _ mail _ _, "jwt:" ++ mail).

End Auth.

(* ===================================================================== *)
(** ** Task, comment and list operations on the entity store *)
(* ===================================================================== *)

(** The handlers for tasks, comments and task lists are not part of
    backend/server.js; the operations of this module are written from
    sections 4.1, 4.2 and 4.5 of the specification and run on the store
    of [Db], whose constraints and referential actions come from
    backend/db.sql. *)

Module Engine.
Import Db.

Inductive error : Type :=
| ValidationError (message : string)
| NotFoundError
| ForbiddenError
| ConflictError
| InternalError.

Inductive result (A : Type) : Type :=
| Ok (a : A)
| Err (e : error).
Arguments Ok {A} a.
Arguments Err {A} e.

Inductive TaskPriority : Type := Low | Medium | High.
Inductive TaskStatus : Type := ToDo | InProgress | Done.

Definition priority_text (p : TaskPriority) : string :=
  match p with Low => "Low" | Medium => "Medium" | High => "High" end.

Definition status_text (s : TaskStatus) : string :=
  match s with ToDo => "To Do" | InProgress => "In Progress" | Done => "Done" end.

Definition parse_priority (s : string) : option TaskPriority :=
  if String.eqb s "Low" then Some Low
  else if String.eqb s "Medium" then Some Medium
  else if String.eqb s "High" then Some High
  else None.

(** The body of a create request as it arrives: every field may be
    missing, and the text fields are not yet validated. *)
Record create_request : Type := mkCreate {
  c_title : option string;
  c_description : option string;
  c_due_date : option string;
  c_priority : option string;
  c_status : option string;
  c_tags : option (list string);
  c_assignees : option (list Z)
}.

(** The body of an update request: [None] is an absent field; a present
    [description] or [due_date] may be null. *)
Record update_request : Type := mkUpdate {
  u_title : option string;
  u_description : option (option string);
  u_due_date : option (option string);
  u_priority : option TaskPriority;
  u_status : option TaskStatus;
  u_tags : option (list string);
  u_assignees : option (list Z)
}.

(** A task with its assignee display objects (user id and name). *)
Record hydrated : Type := mkHydrated {
  task : Task.row;
  assignees : list (Z * string)
}.

Definition assignees_of (db : database) (tid : Z) : list (Z * string) :=
  omap (λ a, if (Assignee.task_id a =? tid)%Z
             then option_map (λ u, (User.user_id u, User.name u))
                             (find_user db (Assignee.user_id a))
             else None)
       (task_assignees db).

Definition hydrate (db : database) (t : Task.row) : hydrated :=
  mkHydrated t (assignees_of db (Task.task_id t)).

Definition title_ok (t : string) : bool := Js.truthy (Js.trim t).

Definition all_users_exist (db : database) (ids : list Z) : bool :=
  forallb (user_exists db) ids.

(** Modelled from the spec: one member of an assignee list takes effect
    (the task handlers are not in this repository's backend file). A
    user who is already assigned keeps the existing row; a new member
    gets a row with [assigned_at = now]. *)
Definition assign (tid : Z) (now : string) (db : database) (uid : Z)
    : option database :=
  if is_assigned (task_assignees db) tid uid then Some db
  else insert_assignee (Assignee.mk tid uid now) db.

Fixpoint assign_all (tid : Z) (now : string) (ids : list Z) (db : database)
    : option database :=
  match ids with
  | [] => Some db
  | uid :: rest =>
      match assign tid now db uid with
      | Some db' => assign_all tid now rest db'
      | None => None
      end
  end.

(** Modelled from the spec: Create(creatorId, fields) of the Task
    Mutation Engine (section 4.1; the handler is not in this repository's
    backend file). The title is required and non-empty after trimming;
    the priority falls back to Medium when omitted or invalid; a status
    in the request is not used, the row is inserted without one; the
    tags default to none and are deduplicated; unknown assignee ids are
    an error. [new_id] and [now] come from the environment. *)
Definition create_task (new_id : Z) (now : string) (creator : Z)
    (req : create_request) (db : database) : result (database * hydrated) :=
  match c_title req with
  | None => Err (ValidationError "title is required")
  | Some title =>
      if negb (title_ok title) then Err (ValidationError "title is required")
      else
        let ids := default [] (c_assignees req) in
        if negb (all_users_exist db ids)
        then Err (ValidationError "unknown assignee")
        else
          let priority :=
            match c_priority req with
            | Some p => option_map priority_text (parse_priority p)
            | None => None
            end in
          let values :=
            {| v_task_id := new_id;
               v_creator_user_id := creator;
               v_title := title;
               v_description := c_description req;
               v_due_date := c_due_date req;
               v_priority := priority;
               v_status := None;
               v_created_at := now;
               v_updated_at := now;
               v_tags := option_map remove_dups (c_tags req) |} in
          match insert_task values db with
          | None => Err InternalError
          | Some db1 =>
              match assign_all new_id now ids db1 with
              | None => Err InternalError
              | Some db2 => Ok (db2, hydrate db2 (task_of_values values))
              end
          end
  end.

(** Modelled from the spec: the column changes of Update (section 4.1;
    the handler is not in this repository's backend file). A field that
    is present replaces the stored value, [updated_at] is refreshed. *)
Definition apply_update (now : string) (req : update_request) (t : Task.row)
    : Task.row :=
  {| Task.task_id := Task.task_id t;
     Task.creator_user_id := Task.creator_user_id t;
     Task.title := default (Task.title t) (u_title req);
     Task.description := default (Task.description t) (u_description req);
     Task.due_date := default (Task.due_date t) (u_due_date req);
     Task.priority := default (Task.priority t) (option_map priority_text (u_priority req));
     Task.status := default (Task.status t) (option_map status_text (u_status req));
     Task.created_at := Task.created_at t;
     Task.updated_at := now;
     Task.tags := default (Task.tags t) (option_map remove_dups (u_tags req)) |}.

(** Modelled from the spec: the removal half of replacing an assignee
    set in Update (section 4.1; the handler is not in this repository's
    backend file). The rows of members that are no longer listed go,
    the others stay as they are. *)
Definition drop_unlisted (tid : Z) (ids : list Z) (db : database) : database :=
  with_task_assignees db
    (List.filter
       (λ a, negb (Assignee.task_id a =? tid)%Z
             || existsb (Z.eqb (Assignee.user_id a)) ids)
       (task_assignees db)).

(** Modelled from the spec: Update(taskId, actorId, partialFields) of
    the Task Mutation Engine (section 4.1; the handler is not in this
    repository's backend file). Only the fields present change; a
    present title must be non-empty after trimming; a present assignee
    list replaces the set (new members get fresh rows, removed members
    lose theirs, unchanged members are untouched); [updated_at] is
    refreshed; a missing task is a NotFoundError. *)
Definition update_task (now : string) (tid actor : Z) (req : update_request)
    (db : database) : result (database * hydrated) :=
  match find_task db tid with
  | None => Err NotFoundError
  | Some t =>
      if negb (default true (option_map title_ok (u_title req)))
      then Err (ValidationError "title must not be empty")
      else if negb (all_users_exist db (default [] (u_assignees req)))
      then Err (ValidationError "unknown assignee")
      else
        let t' := apply_update now req t in
        let db1 :=
          with_tasks db
            (List.map (λ r, if (Task.task_id r =? tid)%Z then apply_update now req r else r)
                      (tasks db)) in
        match u_assignees req with
        | None => Ok (db1, hydrate db1 t')
        | Some ids =>
            match assign_all tid now ids (drop_unlisted tid ids db1) with
            | None => Err InternalError
            | Some db2 => Ok (db2, hydrate db2 t')
            end
        end
  end.

(** Modelled from the spec: Delete(taskId) of the Task Mutation Engine
    (section 4.1; the handler is not in this repository's backend file).
    A missing task is a NotFoundError; otherwise the task row is deleted
    and the store applies the referential actions of the schema. *)
Definition delete_task (tid : Z) (db : database) : result database :=
  if task_exists db tid then Ok (delete_task_row tid db)
  else Err NotFoundError.

Definition is_manager (db : database) (uid : Z) : bool :=
  match find_user db uid with
  | Some u => String.eqb (User.role u) "manager"
  | None => false
  end.

(** Modelled from the spec: Delete(commentId, actorId) of the Comment
    Engine (section 4.2; the handler is not in this repository's backend
    file). The actor must be the author or a manager; the comment row is
    deleted and the store applies the referential action of the schema. *)
Definition delete_comment (cid actor : Z) (db : database) : result database :=
  match find_comment db cid with
  | None => Err NotFoundError
  | Some c =>
      if (Comment.author_user_id c =? actor)%Z || is_manager db actor
      then Ok (delete_comment_row cid db)
      else Err ForbiddenError
  end.

Record pagination : Type := mkPagination {
  current_page : nat;
  total_pages : nat;
  page_size : nat;
  total_items : nat
}.

(** Modelled from the spec: the page count of a list response (section
    4.5; the handler is not in this repository's backend file), the
    ceiling of [n / d]. *)
Definition ceil_div (n d : nat) : nat := (n + d - 1) / d.

(** Modelled from the spec: the pagination step of List(filters, sort,
    pagination) of the Query/Filter Engine (section 4.5; the handler is
    not in this repository's backend file). [filtered] is the filtered
    and sorted set; pages are numbered from 1. *)
Definition paginate {A : Type} (filtered : list A) (page size : nat)
    : list A * pagination :=
  let total := length filtered in
  (firstn size (skipn ((page - 1) * size) filtered),
   {| current_page := page;
      total_pages := ceil_div total size;
      page_size := size;
      total_items := total |}).

Definition twenty_five : list nat := seq 1 25.

Definition assigned (db : database) (tid uid : Z) : bool :=
  is_assigned (task_assignees db) tid uid.

(** The primary key of [task_assignees] holds in [db]. *)
Definition assignee_keys_unique (db : database) : Prop :=
  NoDup (List.map assignee_key (task_assignees db)).

(** An update request that passes validation against [db]. *)
Definition request_ok (db : database) (req : update_request) : Prop :=
  default true (option_map title_ok (u_title req)) = true
  ∧ all_users_exist db (default [] (u_assignees req)) = true.

Definition key_matches (tid uid : Z) (a : Assignee.row) : bool :=
  (Assignee.task_id a =? tid)%Z && (Assignee.user_id a =? uid)%Z.

(** What one [assign] step guarantees. *)
Record assign_post (tid : Z) (db db' : database) : Prop := {
  post_users : users db' = users db;
  post_tasks : tasks db' = tasks db;
  post_comments : task_comments db' = task_comments db;
  post_notifications : notifications db' = notifications db;
  post_reminders : task_reminders db' = task_reminders db;
  post_unique : assignee_keys_unique db → assignee_keys_unique db';
  post_rows : ∀ t u, assigned db t u = true →
                assignee_rows t u db' = assignee_rows t u db;
  post_mono : ∀ t u, assigned db t u = true → assigned db' t u = true;
  post_frame : ∀ t u, t ≠ tid → assignee_rows t u db' = assignee_rows t u db
}.

Definition only_assignees (ids : list Z) : update_request :=
  mkUpdate None None None None None None (Some ids).

Definition sample_create : create_request :=
  mkCreate (Some "Ship release") None None (Some "High") (Some "Done")
           (Some ["release"; "release"]) (Some [2%Z]).

End Engine.

(* ===================================================================== *)
(** ** More JavaScript primitives *)
(* ===================================================================== *)

Module JsText.

(** [s.split(sep)] for a one-character separator. *)
Fixpoint split_on (sep : ascii) (s : string) : list string :=
  match s with
  | EmptyString => [EmptyString]
  | String c s' =>
      if Ascii.eqb c sep then EmptyString :: split_on sep s'
      else match split_on sep s' with
           | piece :: rest => String c piece :: rest
           | [] => [String c EmptyString]
           end
  end.

Fixpoint has_char (sep : ascii) (s : string) : bool :=
  match s with
  | EmptyString => false
  | String c s' => Ascii.eqb c sep || has_char sep s'
  end.

Definition space : ascii := " "%char.

(** [arr.join(", ")] *)
Fixpoint join_comma_space (arr : list string) : string :=
  match arr with
  | [] => EmptyString
  | [s] => s
  | s :: rest => s ++ String Js.comma (String space (join_comma_space rest))
  end.

(** [arr.indexOf(x)] on an array of strings: the first position, or -1. *)
Fixpoint indexOf (arr : list string) (x : string) : Z :=
  match arr with
  | [] => (-1)%Z
  | y :: rest =>
      if String.eqb y x then 0%Z
      else match indexOf rest x with
           | Zneg _ => (-1)%Z
           | i => (i + 1)%Z
           end
  end.

(** [current.includes(x) ? current.filter(y => y !== x) : [...current, x]],
    the shape shared by the filter toggles of the task list. *)
Definition toggle {A : Type} (eqb : A → A → bool) (x : A) (current : list A)
    : list A :=
  if existsb (eqb x) current
  then List.filter (λ y, negb (eqb y x)) current
  else (current ++ [x])%list.

(** The string is empty or starts with a character that is not white
    space. *)
Definition clean_start (t : string) : Prop :=
  match t with
  | String c _ => Js.is_white_space c = false
  | EmptyString => True
  end.

End JsText.

(* ===================================================================== *)
(** ** Middlewares and login (backend/server.js) *)
(* ===================================================================== *)

Module Http.

(** The payload [generate_jwt] signs and [jwt.verify] returns. *)
Record token_user : Type := mkTokenUser {
  user_id : Z;
  email : string;
  role : string;
  name : string
}.

(** A middleware either hands over to the next handler or answers. *)
Inductive outcome : Type :=
| Next (user : token_user)
| Respond (status : Z) (error : string).

(** [auth_middleware]; [verify] stands for [jwt.verify(token, JWT_SECRET)],
    [None] when it throws. [authorization] is the request header. *)
Definition auth_middleware (verify : string → option token_user)
    (authorization : option string) : outcome :=
  match authorization with
  | None => Respond 401 "Authorization header missing"
  | Some authHeader =>
      if negb (Js.truthy authHeader)
      then Respond 401 "Authorization header missing"
      else
        match nth_error (JsText.split_on JsText.space authHeader) 1 with
        | None => Respond 401 "Bearer token missing"
        | Some token =>
            if negb (Js.truthy token) then Respond 401 "Bearer token missing"
            else match verify token with
                 | Some decoded => Next decoded
                 | None => Respond 401 "Invalid or expired token"
                 end
        end
  end.

Definition roleHierarchy : list string := ["regular"; "manager"; "admin"].

(** [require_manager_role]; [user] is [req.user]. *)
Definition require_manager_role (user : option token_user) : outcome :=
  match user with
  | None => Respond 401 "Unauthorized"
  | Some u =>
      let userRoleIndex := JsText.indexOf roleHierarchy (role u) in
      let managerRoleIndex := JsText.indexOf roleHierarchy "manager" in
      if (userRoleIndex <? managerRoleIndex)%Z || (userRoleIndex =? -1)%Z
      then Respond 403 "Manager role required"
      else Next u
  end.

Record login_body : Type := mkLogin {
  l_email : option string;
  l_password : option string
}.

(** POST /api/auth/login. [verify_password] stands for [bcrypt.compare],
    [generate_jwt] for the signing helper. The handler only reads the
    store. *)
Definition login (verify_password : string → string → bool)
    (generate_jwt : Z → string → string → string → string)
    (req : login_body) (db : Db.database) : Auth.response :=
  if Auth.missing (l_email req) || Auth.missing (l_password req)
  then Auth.mkResponse 400 (Auth.ErrorBody "email and password required")
  else
    let email_ := default "" (l_email req) in
    let password_ := default "" (l_password req) in
    let rows :=
      List.filter (λ u, String.eqb (Db.User.email u) (Js.toLowerCase email_))
                  (Db.users db) in
    match rows with
    | [] => Auth.mkResponse 401 (Auth.ErrorBody "Invalid credentials")
    | user :: _ =>
        if verify_password password_ (Db.User.password_hash user)
        then
          let token :=
            generate_jwt (Db.User.user_id user) (Js.toLowerCase email_)
                         (Db.User.role user) (Db.User.name user) in
          Auth.mkResponse 200
            (Auth.Registered token
               (Auth.mkProfile (Db.User.user_id user) (Js.toLowerCase email_)
                  (Db.User.name user) (Db.User.role user)
                  (Db.User.notification_settings user)))
        else Auth.mkResponse 401 (Auth.ErrorBody "Invalid credentials")
    end.


Definition sample_verify (token : string) : option token_user :=
  if String.eqb token "abc.def.ghi"
  then Some (mkTokenUser 1 "alice@example.com" "manager" "Alice Johnson")
  else None.

End Http.

(* ===================================================================== *)
(** ** Client store: tasks, comments and subscriptions (store/main.tsx) *)
(* ===================================================================== *)

Module AppStore.

Inductive TaskPriority : Type := Low | Medium | High.
Inductive TaskStatus : Type := ToDo | InProgress | Done.
Inductive ViewMode : Type := list_view | kanban.

Definition priority_eqb (a b : TaskPriority) : bool :=
  match a, b with
  | Low, Low | Medium, Medium | High, High => true
  | _, _ => false
  end.

Definition status_eqb (a b : TaskStatus) : bool :=
  match a, b with
  | ToDo, ToDo | InProgress, InProgress | Done, Done => true
  | _, _ => false
  end.

Module Assignee.
Record t : Type := mk {
  user_id : Z;
  name : string;
  avatar_url : option string
}.
End Assignee.

Module Comment.
Record t : Type := mk {
  comment_id : Z;
  author_user_id : Z;
  author_name : string;
  body : string;
  created_at : string;
  updated_at : string;
  parent_comment_id : option Z
}.

(** [Partial<Comment> & { comment_id: number }]: [None] is an absent key. *)
Record update : Type := mkUpdate {
  u_comment_id : Z;
  u_author_user_id : option Z;
  u_author_name : option string;
  u_body : option string;
  u_created_at : option string;
  u_updated_at : option string;
  u_parent_comment_id : option (option Z)
}.

(** [{ ...c, ...commentUpdate }] *)
Definition merge (c : t) (u : update) : t :=
  {| comment_id := u_comment_id u;
     author_user_id := default (author_user_id c) (u_author_user_id u);
     author_name := default (author_name c) (u_author_name u);
     body := default (body c) (u_body u);
     created_at := default (created_at c) (u_created_at u);
     updated_at := default (updated_at c) (u_updated_at u);
     parent_comment_id := default (parent_comment_id c) (u_parent_comment_id u) |}.
End Comment.

Module Task.
(** The [Task] interface, and the [comments] key that the comment actions
    read and write on [task_detail] ([None] when the object has no such
    key). *)
Record t : Type := mk {
  task_id : Z;
  title : string;
  description : option string;
  due_date : option string;
  priority : TaskPriority;
  status : TaskStatus;
  tags : list string;
  assignees : list Assignee.t;
  created_at : string;
  updated_at : string;
  comments : option (list Comment.t)
}.

(** [Partial<Task> & { task_id: number }]: [None] is an absent key. *)
Record update : Type := mkUpdate {
  u_task_id : Z;
  u_title : option string;
  u_description : option (option string);
  u_due_date : option (option string);
  u_priority : option TaskPriority;
  u_status : option TaskStatus;
  u_tags : option (list string);
  u_assignees : option (list Assignee.t);
  u_created_at : option string;
  u_updated_at : option string;
  u_comments : option (list Comment.t)
}.

(** [{ ...t, ...taskUpdate }] *)
Definition merge (x : t) (u : update) : t :=
  {| task_id := u_task_id u;
     title := default (title x) (u_title u);
     description := default (description x) (u_description u);
     due_date := default (due_date x) (u_due_date u);
     priority := default (priority x) (u_priority u);
     status := default (status x) (u_status u);
     tags := default (tags x) (u_tags u);
     assignees := default (assignees x) (u_assignees u);
     created_at := default (created_at x) (u_created_at u);
     updated_at := default (updated_at x) (u_updated_at u);
     comments :=
       match u_comments u with
       | Some l => Some l
       | None => comments x
       end |}.

(** [{ ...task_detail, comments: l }] *)
Definition with_comments (x : t) (l : list Comment.t) : t :=
  {| task_id := task_id x; title := title x; description := description x;
     due_date := due_date x; priority := priority x; status := status x;
     tags := tags x; assignees := assignees x; created_at := created_at x;
     updated_at := updated_at x; comments := Some l |}.
End Task.

Record Pagination : Type := mkPagination {
  current_page : Z;
  total_pages : Z;
  page_size : Z;
  total_items : Z
}.

Record TasksFilters : Type := mkFilters {
  status : list TaskStatus;
  priority : list TaskPriority;
  tags : list string;
  assignees : list Z;
  due_date_from : option string;
  due_date_to : option string;
  search_keyword : option string
}.

(** [Partial<TasksFilters>] *)
Record FiltersUpdate : Type := mkFiltersUpdate {
  f_status : option (list TaskStatus);
  f_priority : option (list TaskPriority);
  f_tags : option (list string);
  f_assignees : option (list Z);
  f_due_date_from : option (option string);
  f_due_date_to : option (option string);
  f_search_keyword : option (option string)
}.

Definition no_change : FiltersUpdate :=
  mkFiltersUpdate None None None None None None None.

(** The fields of the store that the task and comment actions read or
    write; zustand's [set] merges, so the others keep their value. *)
Record state : Type := mkState {
  tasks : list Task.t;
  task_detail : option Task.t;
  pagination : Pagination;
  filters : TasksFilters;
  view_mode : ViewMode;
  bulk_selection : list Z;
  comments : list Comment.t
}.

Definition set_tasks (l : list Task.t) (s : state) : state :=
  mkState l (task_detail s) (pagination s) (filters s) (view_mode s)
          (bulk_selection s) (comments s).

Definition set_task_detail (d : option Task.t) (s : state) : state :=
  mkState (tasks s) d (pagination s) (filters s) (view_mode s)
          (bulk_selection s) (comments s).

Definition set_pagination (p : Pagination) (s : state) : state :=
  mkState (tasks s) (task_detail s) p (filters s) (view_mode s)
          (bulk_selection s) (comments s).

(** [filters: { ...state.filters, ...filters }] *)
Definition set_filters (u : FiltersUpdate) (s : state) : state :=
  let f := filters s in
  mkState (tasks s) (task_detail s) (pagination s)
    {| status := default (status f) (f_status u);
       priority := default (priority f) (f_priority u);
       tags := default (tags f) (f_tags u);
       assignees := default (assignees f) (f_assignees u);
       due_date_from := default (due_date_from f) (f_due_date_from u);
       due_date_to := default (due_date_to f) (f_due_date_to u);
       search_keyword := default (search_keyword f) (f_search_keyword u) |}
    (view_mode s) (bulk_selection s) (comments s).

Definition set_view_mode (m : ViewMode) (s : state) : state :=
  mkState (tasks s) (task_detail s) (pagination s) (filters s) m
          (bulk_selection s) (comments s).

Definition set_bulk_selection (sel : list Z) (s : state) : state :=
  mkState (tasks s) (task_detail s) (pagination s) (filters s) (view_mode s)
          sel (comments s).

Definition add_task (task : Task.t) (s : state) : state :=
  set_tasks
    (task :: List.filter (λ x, negb (Task.task_id x =? Task.task_id task)%Z) (tasks s))
    s.

Definition update_task (taskUpdate : Task.update) (s : state) : state :=
  mkState
    (List.map (λ x, if (Task.task_id x =? Task.u_task_id taskUpdate)%Z
                    then Task.merge x taskUpdate else x)
              (tasks s))
    (match task_detail s with
     | Some d =>
         if (Task.task_id d =? Task.u_task_id taskUpdate)%Z
         then Some (Task.merge d taskUpdate) else Some d
     | None => None
     end)
    (pagination s) (filters s) (view_mode s) (bulk_selection s) (comments s).

(** [task_ids.includes(id)] *)
Definition includes (ids : list Z) (id : Z) : bool := existsb (Z.eqb id) ids.

Definition remove_tasks_by_ids (task_ids : list Z) (s : state) : state :=
  mkState
    (List.filter (λ x, negb (includes task_ids (Task.task_id x))) (tasks s))
    (match task_detail s with
     | Some d => if includes task_ids (Task.task_id d) then None else Some d
     | None => None
     end)
    (pagination s) (filters s) (view_mode s)
    (List.filter (λ id, negb (includes task_ids id)) (bulk_selection s))
    (comments s).

Definition set_comments (l : list Comment.t) (s : state) : state :=
  mkState (tasks s) (task_detail s) (pagination s) (filters s) (view_mode s)
          (bulk_selection s) l.

(** [add_comment]. Spreading [state.task_detail.comments] throws a
    TypeError when the task object has no [comments] array; the action
    then has no result ([None]) and the store keeps its state. *)
Definition add_comment (c : Comment.t) (s : state) : option state :=
  match task_detail s with
  | Some d =>
      match Task.comments d with
      | Some l =>
          Some (mkState (tasks s) (Some (Task.with_comments d (l ++ [c])))
                  (pagination s) (filters s) (view_mode s) (bulk_selection s)
                  (comments s ++ [c]))
      | None => None
      end
  | None =>
      Some (mkState (tasks s) None (pagination s) (filters s) (view_mode s)
              (bulk_selection s) (comments s ++ [c]))
  end.

Definition update_comment (commentUpdate : Comment.update) (s : state) : state :=
  let updatedComments :=
    List.map (λ c, if (Comment.comment_id c =? Comment.u_comment_id commentUpdate)%Z
                   then Comment.merge c commentUpdate else c)
             (comments s) in
  mkState (tasks s)
    (match task_detail s with
     | Some d => Some (Task.with_comments d updatedComments)
     | None => None
     end)
    (pagination s) (filters s) (view_mode s) (bulk_selection s) updatedComments.

Definition remove_comment (comment_id : Z) (s : state) : state :=
  let filteredComments :=
    List.filter (λ c, negb (Comment.comment_id c =? comment_id)%Z) (comments s) in
  mkState (tasks s)
    (match task_detail s with
     | Some d => Some (Task.with_comments d filteredComments)
     | None => None
     end)
    (pagination s) (filters s) (view_mode s) (bulk_selection s) filteredComments.

(** The websocket slice. *)
Record WebsocketState : Type := mkWebsocket {
  connected : bool;
  subscribed_task_ids : list Z;
  subscribed_user_notifications : bool
}.

Definition websocket_initial : WebsocketState := mkWebsocket false [] false.

Definition subscribe_task_id (task_id : Z) (w : WebsocketState) : WebsocketState :=
  let current := subscribed_task_ids w in
  if negb (includes current task_id)
  then mkWebsocket (connected w) (current ++ [task_id]) (subscribed_user_notifications w)
  else w.

Definition unsubscribe_task_id (task_id : Z) (w : WebsocketState) : WebsocketState :=
  let current := subscribed_task_ids w in
  if includes current task_id
  then mkWebsocket (connected w)
         (List.filter (λ id, negb (id =? task_id)%Z) current)
         (subscribed_user_notifications w)
  else w.

Definition clear_subscriptions (w : WebsocketState) : WebsocketState :=
  mkWebsocket (connected w) [] false.

Inductive ws_action : Type :=
| Subscribe (task_id : Z)
| Unsubscribe (task_id : Z)
| Clear.

Definition ws_dispatch (w : WebsocketState) (a : ws_action) : WebsocketState :=
  match a with
  | Subscribe id => subscribe_task_id id w
  | Unsubscribe id => unsubscribe_task_id id w
  | Clear => clear_subscriptions w
  end.

(** [task_detail.comments] shows the comment list of the store. *)
Definition comments_synced (s : state) : Prop :=
  match task_detail s with
  | Some d => Task.comments d = Some (comments s)
  | None => True
  end.

Definition merged (u : Task.update) (x : Task.t) : Task.t :=
  if (Task.task_id x =? Task.u_task_id u)%Z then Task.merge x u else x.

Definition sample_task (id : Z) (title : string) : Task.t :=
  Task.mk id title None None Medium ToDo [] [] "2024-06-05T08:00:00Z"
          "2024-06-05T08:00:00Z" None.

Definition sample_state : state :=
  mkState [sample_task 101 "Design new feature UI"; sample_task 102 "Fix login bug"]
          None (mkPagination 1 3 20 45)
          (mkFilters [] [] [] [] None None None) list_view [101%Z] [].

Definition sample_comment (id : Z) (parent : option Z) : Comment.t :=
  Comment.mk id 2 "Bob Smith" "On it." "2024-06-05T10:00:00Z"
             "2024-06-05T10:00:00Z" parent.

End AppStore.

(* ===================================================================== *)
(** ** Task-list view: selection, filters and paging handlers *)
(* ===================================================================== *)

Module TaskListView.
Import AppStore.


Definition handleSelectAllChange (checked : bool) (s : state) : state :=
  if checked
  then set_bulk_selection (List.map Task.task_id (tasks s)) s
  else set_bulk_selection [] s.

(** [allSelected], the state of the select-all checkbox. *)
Definition allSelected (s : state) : bool :=
  (0 <? length (bulk_selection s))%nat
  && (0 <? length (tasks s))%nat
  && (length (bulk_selection s) =? length (tasks s))%nat.

(** [handleBulkDeleteConfirm]: the ids handed to the bulk-delete
    mutation, if any. *)
Definition handleBulkDeleteConfirm (s : state) : option (list Z) :=
  if (length (bulk_selection s) =? 0)%nat then None
  else Some (bulk_selection s).

(** [onSuccess] of the bulk-delete mutation; [selection] is the
    [bulk_selection] the handler closed over. *)
Definition bulk_delete_succeeded (selection : list Z) (s : state) : state :=
  set_bulk_selection [] (remove_tasks_by_ids selection s).

(** [set_pagination({ ...pagination, current_page: 1 })] *)
Definition first_page (p : Pagination) : Pagination :=
  mkPagination 1 (total_pages p) (page_size p) (total_items p).

Definition toggleStatusFilter (x : TaskStatus) (s : state) : state :=
  let current := status (filters s) in
  set_pagination (first_page (pagination s))
    (set_filters
       (mkFiltersUpdate (Some (JsText.toggle status_eqb x current))
                        None None None None None None) s).

Definition togglePriorityFilter (x : TaskPriority) (s : state) : state :=
  let current := priority (filters s) in
  set_pagination (first_page (pagination s))
    (set_filters
       (mkFiltersUpdate None (Some (JsText.toggle priority_eqb x current))
                        None None None None None) s).

Definition toggleTagFilter (x : string) (s : state) : state :=
  let current := tags (filters s) in
  set_pagination (first_page (pagination s))
    (set_filters
       (mkFiltersUpdate None None (Some (JsText.toggle String.eqb x current))
                        None None None None) s).

Definition toggleAssigneeFilter (x : Z) (s : state) : state :=
  let current := assignees (filters s) in
  set_pagination (first_page (pagination s))
    (set_filters
       (mkFiltersUpdate None None None (Some (JsText.toggle Z.eqb x current))
                        None None None) s).

Definition handlePageChange (newPage : Z) (s : state) : state :=
  if (1 <=? newPage)%Z && (newPage <=? total_pages (pagination s))%Z
  then set_pagination
         (mkPagination newPage (total_pages (pagination s))
            (page_size (pagination s)) (total_items (pagination s))) s
  else s.

(** The page shown lies between 1 and the page count. *)
Definition page_in_range (s : state) : Prop :=
  (1 ≤ current_page (pagination s) ≤ total_pages (pagination s))%Z.

End TaskListView.

(* ===================================================================== *)
(** ** Task forms: what the modals send *)
(* ===================================================================== *)

Module TaskForms.
Import AppStore.

(** [text.split(",").map((t) => t.trim()).filter((t) => t.length > 0)],
    used for the tags input of every task form. *)
Definition parse_tags (text : string) : list string :=
  List.filter Js.truthy (List.map Js.trim (Js.split_comma text)).

Record TaskCreatePayload : Type := mkCreatePayload {
  title : string;
  description : option string;
  due_date : option string;
  priority : TaskPriority;
  tags : list string;
  assignees : option (list Z)
}.

(** [handleCreateSave] of the global modal wrapper: the error it shows,
    or the payload it hands to the create mutation. *)
Definition handleCreateSave
    (create_title create_description create_due_date : string)
    (create_priority : TaskPriority) (create_tags_text : string)
    (create_assignees : list Z) : string + TaskCreatePayload :=
  if negb (Js.truthy (Js.trim create_title)) then inl "Title is required."
  else
    let tagsArray := parse_tags create_tags_text in
    let dueDateFormatted :=
      if negb (Js.truthy (Js.trim create_due_date)) then None
      else Some create_due_date in
    inr {| title := Js.trim create_title;
           description :=
             if Js.truthy (Js.trim create_description)
             then Some (Js.trim create_description) else None;
           due_date := dueDateFormatted;
           priority := create_priority;
           tags := tagsArray;
           assignees :=
             if (0 <? length create_assignees)%nat then Some create_assignees
             else None |}.

(** The tags field of the task detail modal: [tagsString] shows the tags
    joined with a comma and a blank, [onTagsInputChange] parses what the
    user leaves in the field. *)
Definition tagsString (tags : list string) : string :=
  JsText.join_comma_space tags.

Definition onTagsInputChange (value : string) : list string :=
  parse_tags value.



End TaskForms.

(* ===================================================================== *)
(** ** The constraints of backend/db.sql as predicates *)
(* ===================================================================== *)

Module Constraints.
Import Db.

Definition comment_exists (db : database) (cid : Z) : bool :=
  existsb (λ c, Comment.comment_id c =? cid)%Z (task_comments db).

(** Every [REFERENCES] clause of the schema resolves. *)
Record foreign_keys (db : database) : Prop := {
  fk_task_creator :
    Forall (λ t, user_exists db (Task.creator_user_id t) = true) (tasks db);
  fk_assignee_task :
    Forall (λ a, task_exists db (Assignee.task_id a) = true) (task_assignees db);
  fk_assignee_user :
    Forall (λ a, user_exists db (Assignee.user_id a) = true) (task_assignees db);
  fk_comment_task :
    Forall (λ c, task_exists db (Comment.task_id c) = true) (task_comments db);
  fk_comment_author :
    Forall (λ c, user_exists db (Comment.author_user_id c) = true) (task_comments db);
  fk_comment_parent :
    Forall (λ c, match Comment.parent_comment_id c with
                 | Some p => comment_exists db p = true
                 | None => True
                 end) (task_comments db);
  fk_notification_user :
    Forall (λ n, user_exists db (Notification.user_id n) = true) (notifications db);
  fk_reminder_task :
    Forall (λ r, task_exists db (Reminder.task_id r) = true) (task_reminders db)
}.

(** Every [PRIMARY KEY] and [UNIQUE] clause of the schema holds. *)
Record keys (db : database) : Prop := {
  pk_users : NoDup (List.map User.user_id (users db));
  uq_users_email : NoDup (List.map User.email (users db));
  pk_tasks : NoDup (List.map Task.task_id (tasks db));
  pk_task_assignees : NoDup (List.map assignee_key (task_assignees db));
  pk_task_comments : NoDup (List.map Comment.comment_id (task_comments db));
  pk_notifications : NoDup (List.map Notification.notification_id (notifications db));
  pk_task_reminders : NoDup (List.map Reminder.reminder_id (task_reminders db))
}.

Definition consistent (db : database) : Prop := keys db ∧ foreign_keys db.

End Constraints.

(* ===================================================================== *)
(** ** Registration form (views/UV_Register.tsx) *)
(* ===================================================================== *)

Module RegisterForm.

Definition is_lower (c : ascii) : bool :=
  let n := nat_of_ascii c in Nat.leb 97 n && Nat.leb n 122.

Definition is_upper (c : ascii) : bool :=
  let n := nat_of_ascii c in Nat.leb 65 n && Nat.leb n 90.

Definition is_digit (c : ascii) : bool :=
  let n := nat_of_ascii c in Nat.leb 48 n && Nat.leb n 57.

(** [/[class]/.test(value)]: some character of the string is in the
    class. *)
Fixpoint test_class (class : ascii → bool) (value : string) : bool :=
  match value with
  | EmptyString => false
  | String c rest => class c || test_class class rest
  end.

Definition validatePassword (value : string) : option string :=
  if (String.length value <? 8)%nat
  then Some "Password must be at least 8 characters long."
  else if negb (test_class is_lower value)
  then Some "Password must include a lowercase letter."
  else if negb (test_class is_upper value)
  then Some "Password must include an uppercase letter."
  else if negb (test_class is_digit value)
  then Some "Password must include a number."
  else None.

Record ValidationErrors : Type := mkErrors {
  e_name : option string;
  e_email : option string;
  e_password : option string;
  e_confirmPassword : option string
}.

(** [validateInputs]; [validateEmail] is the form's address test, a
    regular expression that is taken here as a given predicate. *)
Definition validateInputs (validateEmail : string → bool)
    (name email password confirmPassword : string) : ValidationErrors :=
  {| e_name :=
       if (String.length (Js.trim name) =? 0)%nat then Some "Name is required."
       else None;
     e_email :=
       if (String.length (Js.trim email) =? 0)%nat then Some "Email is required."
       else if negb (validateEmail (Js.trim email))
       then Some "Email format is invalid."
       else None;
     e_password :=
       let pwdError := validatePassword password in
       if (String.length password =? 0)%nat then Some "Password is required."
       else match pwdError with
            | Some m => if Js.truthy m then Some m else None
            | None => None
            end;
     e_confirmPassword :=
       if (String.length confirmPassword =? 0)%nat
       then Some "Please confirm your password."
       else if negb (String.eqb password confirmPassword)
       then Some "Passwords do not match."
       else None |}.

(** [(err) => err !== null && err !== ""] *)
Definition is_error (err : option string) : bool :=
  match err with
  | Some m => Js.truthy m
  | None => false
  end.

(** [handleFormSubmit]: the body posted to /api/auth/register, or
    nothing when a field has an error. *)
Definition handleFormSubmit (validateEmail : string → bool)
    (name email password confirmPassword : string) : option Auth.register_body :=
  let errors := validateInputs validateEmail name email password confirmPassword in
  let hasErrors :=
    existsb is_error
      [e_name errors; e_email errors; e_password errors; e_confirmPassword errors] in
  if hasErrors then None
  else Some (Auth.mkBody (Some (Js.trim email)) (Some password) (Some (Js.trim name))).

End RegisterForm.

(* ===================================================================== *)
(** ** Marking several notifications (notification center) *)
(* ===================================================================== *)

Module NotificationBatch.
Import Store.

Definition mark_each (ids : list Z) (state : NotificationsState)
    : NotificationsState :=
  fold_left (λ st id, mark_as_read id st) ids state.

Definition mark_listed (ids : list Z) (n : Notification) : Notification :=
  if existsb (Z.eqb (notification_id n)) ids then with_is_read_true n else n.

End NotificationBatch.

(* ===================================================================== *)
(** * Theorems *)
(* ===================================================================== *)

(* ===================================================================== *)
(** ** String primitives on sample inputs *)
(* ===================================================================== *)

Section JsFacts.

Example trim_both_ends :
  Js.trim (String (ascii_of_nat 9) "  To Do " ++ String (ascii_of_nat 10) "") = "To Do".
Proof. reflexivity. Qed.

Example trim_blank : Js.trim "   " = "".
Proof. reflexivity. Qed.

Example split_pieces : Js.split_comma "a,,b," = ["a"; ""; "b"; ""].
Proof. reflexivity. Qed.

Example split_empty : Js.split_comma "" = [""].
Proof. reflexivity. Qed.

Example join_pieces : Js.join_comma ["a"; ""; "b"] = "a,,b".
Proof. reflexivity. Qed.

Example lower_mixed : Js.toLowerCase "Bob@Example.COM" = "bob@example.com".
Proof. reflexivity. Qed.

Lemma split_comma_nonempty s : Js.split_comma s ≠ [].
Proof.
  destruct s as [|c s]; simpl; [done|].
  destruct (Ascii.eqb c Js.comma); [done|]. by destruct (Js.split_comma s).
Qed.

End JsFacts.

(* ===================================================================== *)
(** ** The connection registry *)
(* ===================================================================== *)

Section RegistryFacts.
Import Realtime.

Lemma mirrors_default m live u :
  mirrors m live → default ∅ (m !! u) = live u.
Proof.
  intros H. rewrite (H u). case_decide as He; simpl; [by rewrite He | done].
Qed.

Lemma mirrors_connection m live uid sid :
  mirrors m live →
  mirrors (on_connection uid sid m) (connected_step live (Connect uid sid)).
Proof.
  intros H. destruct uid as [uid|]; simpl; [|exact H].
  destruct (Js.truthy uid); [|exact H].
  intros u. destruct (decide (u = uid)) as [->|Hne].
  - rewrite lookup_insert_eq, (mirrors_default _ _ _ H).
    case_decide as He; [|done]. exfalso. set_solver.
  - rewrite lookup_insert_ne by done. apply H.
Qed.

Lemma mirrors_disconnect m live uid sid :
  mirrors m live →
  mirrors (on_disconnect uid sid m) (connected_step live (Disconnect uid sid)).
Proof.
  intros H u. unfold on_disconnect. simpl.
  pose proof (H uid) as Hu.
  destruct (decide (live uid = ∅)) as [He|Hne].
  - rewrite Hu. destruct (decide (u = uid)) as [->|Hd].
    + rewrite Hu. rewrite He. case_decide as Hx; [done|]. exfalso. set_solver.
    + apply H.
  - rewrite Hu. case_decide as Hsz.
    + apply size_empty_iff in Hsz. apply leibniz_equiv in Hsz.
      destruct (decide (u = uid)) as [->|Hd].
      * rewrite lookup_delete_eq. by rewrite decide_True.
      * rewrite lookup_delete_ne by done. apply H.
    + destruct (decide (u = uid)) as [->|Hd].
      * rewrite lookup_insert_eq. case_decide as Hx; [|done].
        exfalso. apply Hsz. rewrite Hx. apply size_empty.
      * rewrite lookup_insert_ne by done. apply H.
Qed.

Lemma mirrors_step m live e :
  mirrors m live → mirrors (step m e) (connected_step live e).
Proof.
  destruct e; [apply mirrors_connection | apply mirrors_disconnect].
Qed.

Lemma mirrors_fold tr : ∀ m live,
  mirrors m live →
  mirrors (fold_left step tr m) (fold_left connected_step tr live).
Proof.
  induction tr as [|e tr IH]; intros m live H; simpl; [exact H|].
  apply IH, mirrors_step, H.
Qed.

(** C8. After every sequence of connect and disconnect events, the
    registry holds, for every user id, exactly the set of that user's
    currently connected socket ids, and it has an entry for the user id
    if and only if that set is not empty. *)
Theorem registry_tracks_connected_sockets (tr : list event) (u : string) :
  run tr !! u =
    (if decide (connected tr u = ∅) then None else Some (connected tr u))
  ∧ (is_Some (run tr !! u) ↔ connected tr u ≠ ∅).
Proof.
  assert (Hm : mirrors (run tr) (connected tr)).
  { apply mirrors_fold. intros v. rewrite lookup_empty. by rewrite decide_True. }
  split; [apply Hm|].
  rewrite (Hm u). case_decide as He; split.
  - intros [x Hx]. discriminate.
  - intros Hne. contradiction.
  - intros _. exact He.
  - intros _. eauto.
Qed.

(** A second connection of the same user is recorded next to the first. *)
Lemma connection_keeps_other_sockets m uid sid s :
  Js.truthy uid = true →
  m !! uid = Some s →
  on_connection (Some uid) sid m !! uid = Some (s ∪ {[sid]}).
Proof.
  intros Ht Hs. unfold on_connection. rewrite Ht, Hs. simpl.
  apply lookup_insert_eq.
Qed.

(** Closing one connection leaves the user's other sockets in place. *)
Lemma disconnect_keeps_other_sockets m uid sid s other :
  m !! uid = Some s →
  other ∈ s → other ≠ sid →
  ∃ s', on_disconnect uid sid m !! uid = Some s' ∧ other ∈ s' ∧ sid ∉ s'.
Proof.
  intros Hs Hin Hne. unfold on_disconnect. rewrite Hs.
  case_decide as Hsz.
  - apply size_empty_iff in Hsz. set_solver.
  - exists (s ∖ {[sid]}). rewrite lookup_insert_eq. set_solver.
Qed.

(** Closing a connection does not touch any other user's entry. *)
Lemma disconnect_other_user m uid sid v :
  v ≠ uid → on_disconnect uid sid m !! v = m !! v.
Proof.
  intros Hne. unfold on_disconnect. destruct (m !! uid); [|done].
  case_decide; [by rewrite lookup_delete_ne | by rewrite lookup_insert_ne].
Qed.

(** The entry goes exactly when the last connection closes. *)
Lemma disconnect_last_socket m uid sid :
  m !! uid = Some {[sid]} → on_disconnect uid sid m !! uid = None.
Proof.
  intros Hs. unfold on_disconnect. rewrite Hs.
  rewrite decide_True; [apply lookup_delete_eq|].
  apply size_empty_iff. set_solver.
Qed.

Example two_tabs_one_closes :
  run [Connect (Some "u1") "a"; Connect (Some "u1") "b"; Connect (Some "u2") "c";
       Disconnect "u1" "a"] !! "u1" = Some {[ "b" ]}.
Proof. vm_compute. reflexivity. Qed.

End RegistryFacts.

(* ===================================================================== *)
(** ** Query-string arrays *)
(* ===================================================================== *)

Section QueryParamFacts.
Import QueryParams.

Lemma split_comma_no_comma s :
  Js.has_comma s = false → Js.split_comma s = [s].
Proof.
  induction s as [|c s IH]; simpl; [done|].
  intros H. apply orb_false_iff in H as [Hc Hs].
  rewrite Hc, (IH Hs). done.
Qed.

Lemma split_comma_append s r :
  Js.has_comma s = false →
  Js.split_comma (s ++ String Js.comma r) = s :: Js.split_comma r.
Proof.
  induction s as [|c s IH]; simpl; intros H.
  - done.
  - apply orb_false_iff in H as [Hc Hs].
    rewrite Hc, (IH Hs). done.
Qed.

Lemma split_join l :
  l ≠ [] →
  Forall (λ s, Js.has_comma s = false) l →
  Js.split_comma (Js.join_comma l) = l.
Proof.
  induction l as [|s l IH]; [done|].
  intros _ H. inversion H as [|? ? Hs Hl]; subst.
  destruct l as [|s' l'].
  - simpl. by apply split_comma_no_comma.
  - change (Js.join_comma (s :: s' :: l'))
      with (s ++ String Js.comma (Js.join_comma (s' :: l'))).
    rewrite split_comma_append by done.
    f_equal. by apply IH.
Qed.

Lemma truthy_append s r : Js.truthy s = true → Js.truthy (s ++ r) = true.
Proof. by destruct s. Qed.

Lemma truthy_join s l :
  Js.truthy s = true → Js.truthy (Js.join_comma (s :: l)) = true.
Proof.
  intros H. destruct l; [done|].
  change (Js.truthy (s ++ String Js.comma (Js.join_comma (s0 :: l))) = true).
  by apply truthy_append.
Qed.

Lemma map_trim_fixed l :
  Forall (λ s, Js.trim s = s) l → List.map Js.trim l = l.
Proof.
  induction 1 as [|s l Hs _ IH]; simpl; [done|]. by rewrite Hs, IH.
Qed.

Lemma filter_truthy_all l :
  Forall (λ s, Js.truthy s = true) l → List.filter Js.truthy l = l.
Proof.
  induction 1 as [|s l Hs _ IH]; simpl; [done|]. by rewrite Hs, IH.
Qed.

(** C9, as stated, fails: an entry with a leading blank is not empty
    after trimming and has no comma, yet parsing returns it trimmed. *)
Lemma parse_serialize_padded_item :
  Forall survives_trim [" a"]
  ∧ parseQueryParamArray (Some (serializeQueryParamArray [" a"])) = ["a"]
  ∧ parseQueryParamArray (Some (serializeQueryParamArray [" a"])) ≠ [" a"].
Proof.
  split; [|split].
  - constructor; [|constructor]. split; [discriminate | reflexivity].
  - reflexivity.
  - discriminate.
Qed.

(** What parsing a serialized list returns in general: the entries,
    each trimmed. *)
Lemma parse_serialize_trims (arr : list string) :
  Forall survives_trim arr →
  parseQueryParamArray (Some (serializeQueryParamArray arr)) = List.map Js.trim arr.
Proof.
  intros H. unfold parseQueryParamArray, serializeQueryParamArray.
  destruct arr as [|s l]; [reflexivity|].
  assert (Hs : Js.truthy s = true).
  { inversion H as [|? ? [Hne _] _]; subst. destruct s; [|done].
    exfalso. by apply Hne. }
  rewrite (truthy_join s l Hs).
  rewrite split_join.
  - apply filter_truthy_all. apply Forall_map.
    eapply Forall_impl; [exact H|].
    intros x [Hne _]. simpl. by destruct (Js.trim x).
  - done.
  - eapply Forall_impl; [exact H|]. by intros x [_ Hc].
Qed.

(** C9, amended. For every list of strings that are non-empty, carry no
    leading or trailing white space and contain no comma, parsing the
    comma-joined serialization returns the list. *)
Theorem parse_serialize_roundtrip (arr : list string) :
  Forall plain_item arr →
  parseQueryParamArray (Some (serializeQueryParamArray arr)) = arr.
Proof.
  intros H. rewrite parse_serialize_trims.
  - apply map_trim_fixed. eapply Forall_impl; [exact H|].
    by intros x (_ & Ht & _).
  - eapply Forall_impl; [exact H|].
    intros x (Hne & Ht & Hc). split; [by rewrite Ht | exact Hc].
Qed.

Lemma parse_serialize_roundtrip_witness :
  Forall plain_item ["To Do"; "In Progress"]
  ∧ parseQueryParamArray (Some (serializeQueryParamArray ["To Do"; "In Progress"]))
    = ["To Do"; "In Progress"].
Proof.
  assert (H : Forall plain_item ["To Do"; "In Progress"]).
  { repeat constructor; discriminate. }
  split; [exact H | exact (parse_serialize_roundtrip _ H)].
Defined.

Example serialize_status_filter :
  serializeQueryParamArray ["To Do"; "In Progress"] = "To Do,In Progress".
Proof. reflexivity. Qed.

Example parse_skips_blank_pieces :
  parseQueryParamArray (Some "High, ,Low,") = ["High"; "Low"].
Proof. reflexivity. Qed.

Example parse_null : parseQueryParamArray None = [].
Proof. reflexivity. Qed.

End QueryParamFacts.

(* ===================================================================== *)
(** ** The notification slice of the client store *)
(* ===================================================================== *)

Section StoreFacts.
Import Store.

Lemma mark_marked id n : marked id n (mark id n).
Proof.
  unfold marked, mark. destruct (notification_id n =? id)%Z; simpl; tauto.
Qed.

Lemma mark_twice id n : mark id (mark id n) = mark id n.
Proof.
  unfold mark. destruct (notification_id n =? id)%Z eqn:E; simpl.
  - by rewrite E.
  - by rewrite E.
Qed.

Lemma mark_already_read id n :
  (notification_id n = id → is_read n = true) → mark id n = n.
Proof.
  unfold mark. intros H. destruct (Z.eqb_spec (notification_id n) id) as [E|E]; [|done].
  destruct n as [i t m r c rd]. simpl in *. by rewrite (H E).
Qed.

Lemma map_mark_already_read id l :
  Forall (λ n, notification_id n = id → is_read n = true) l →
  List.map (mark id) l = l.
Proof.
  induction 1 as [|n l Hn _ IH]; simpl; [done|].
  by rewrite (mark_already_read _ _ Hn), IH.
Qed.

(** C5. [mark_as_read] is a total function of the store state. It sets
    the read flag of the notification with the given id and changes no
    other field and no other notification; applied to a notification
    that is already read it leaves the list as it is; and applying it
    twice is the same as applying it once. *)
Theorem mark_as_read_idempotent (id : Z) (state : NotificationsState) :
  Forall2 (marked id) (notifications state)
          (notifications (mark_as_read id state))
  ∧ (Forall (λ n, notification_id n = id → is_read n = true)
            (notifications state) →
     notifications (mark_as_read id state) = notifications state)
  ∧ mark_as_read id (mark_as_read id state) = mark_as_read id state.
Proof.
  unfold mark_as_read. simpl. fold (mark id). split; [|split].
  - induction (notifications state) as [|n l IH]; simpl; constructor.
    + apply mark_marked.
    + exact IH.
  - apply map_mark_already_read.
  - assert (E : List.map (mark id) (List.map (mark id) (notifications state))
                = List.map (mark id) (notifications state)).
    { rewrite List.map_map. apply List.map_ext. intros n. apply mark_twice. }
    by rewrite E.
Qed.

Lemma mark_as_read_idempotent_witness :
  notifications (mark_as_read 303 (mkState [sample_unread; sample_read] 1))
  = [sample_unread; sample_read].
Proof.
  apply (mark_as_read_idempotent 303 (mkState [sample_unread; sample_read] 1)).
  repeat constructor; simpl; intros; try reflexivity; discriminate.
Defined.

Example mark_as_read_flips :
  mark_as_read 301 (mkState [sample_unread; sample_read] 1)
  = mkState [with_is_read_true sample_unread; sample_read] 0.
Proof. reflexivity. Qed.

Lemma count_unread_all_read l :
  count_unread (List.map with_is_read_true l) = 0%Z.
Proof.
  unfold count_unread. induction l as [|n l IH]; simpl; [done|]. exact IH.
Qed.

Lemma count_unread_cons n l :
  count_unread (n :: l)
  = (if is_read n then count_unread l else count_unread l + 1)%Z.
Proof.
  unfold count_unread. simpl. destruct (is_read n); simpl; lia.
Qed.

Lemma set_notifications_consistent l state :
  counter_consistent (set_notifications l state).
Proof. reflexivity. Qed.

Lemma mark_as_read_consistent id state :
  counter_consistent (mark_as_read id state).
Proof. reflexivity. Qed.

Lemma mark_all_as_read_consistent state :
  counter_consistent (mark_all_as_read state).
Proof.
  unfold counter_consistent, mark_all_as_read. simpl.
  by rewrite count_unread_all_read.
Qed.

Lemma add_notification_consistent n state :
  counter_consistent state → counter_consistent (add_notification n state).
Proof.
  unfold counter_consistent, add_notification. intros H.
  destruct (List.find _ _); [exact H|]. simpl.
  rewrite count_unread_cons, H. done.
Qed.

Lemma dispatch_consistent state a :
  counter_consistent state → counter_consistent (dispatch state a).
Proof.
  intros H. destruct a; simpl.
  - apply set_notifications_consistent.
  - by apply add_notification_consistent.
  - apply mark_as_read_consistent.
  - apply mark_all_as_read_consistent.
Qed.

Lemma run_consistent acts : ∀ state,
  counter_consistent state → counter_consistent (fold_left dispatch acts state).
Proof.
  induction acts as [|a acts IH]; intros state H; simpl; [exact H|].
  apply IH, dispatch_consistent, H.
Qed.

Lemma find_none_occurrences id l :
  List.find (λ n, notification_id n =? id)%Z l = None ↔ occurrences id l = 0.
Proof.
  unfold occurrences. induction l as [|n l IH]; simpl; [done|].
  destruct (notification_id n =? id)%Z; simpl; [split; discriminate | exact IH].
Qed.

(** C10, as stated, fails for [add_notification]: the action adjusts the
    counter it finds, so after the store's own [set_unread_count] has
    put the counter at 5 on an empty list, adding one unread
    notification leaves the counter at 6 with one unread entry. *)
Lemma add_notification_after_set_unread_count :
  let state := add_notification sample_unread (set_unread_count 5 initial) in
  unread_count state = 6%Z
  ∧ count_unread (notifications state) = 1%Z
  ∧ ¬ counter_consistent state.
Proof.
  split; [reflexivity | split; [reflexivity | discriminate]].
Qed.

(** C10, amended. After [set_notifications], [mark_as_read] or
    [mark_all_as_read] the counter equals the number of unread
    notifications in the store; [add_notification] keeps that equality
    whenever it held before the call, so it holds after every sequence
    of the four actions from the initial store. [add_notification]
    leaves the store as it is when the id is already present, and puts
    the notification in front otherwise. *)
Theorem unread_count_tracks_notifications :
  (∀ l state, counter_consistent (set_notifications l state))
  ∧ (∀ id state, counter_consistent (mark_as_read id state))
  ∧ (∀ state, counter_consistent (mark_all_as_read state))
  ∧ (∀ n state, counter_consistent state →
                counter_consistent (add_notification n state))
  ∧ (∀ acts, counter_consistent (fold_left dispatch acts initial))
  ∧ (∀ n state,
       occurrences (notification_id n) (notifications state) ≠ 0 →
       add_notification n state = state)
  ∧ (∀ n state,
       occurrences (notification_id n) (notifications state) = 0 →
       notifications (add_notification n state) = n :: notifications state
       ∧ occurrences (notification_id n)
                     (notifications (add_notification n state)) = 1).
Proof.
  split; [exact set_notifications_consistent|].
  split; [exact mark_as_read_consistent|].
  split; [exact mark_all_as_read_consistent|].
  split; [exact add_notification_consistent|].
  split; [intros acts; by apply run_consistent|].
  split.
  - intros n state H. unfold add_notification.
    destruct (List.find _ _) eqn:E; [done|].
    by apply find_none_occurrences in E.
  - intros n state H. unfold add_notification.
    pose proof H as E. apply find_none_occurrences in E. rewrite E. simpl.
    split; [done|]. unfold occurrences in *. simpl.
    rewrite Z.eqb_refl. simpl. by rewrite H.
Qed.

Lemma unread_count_tracks_notifications_witness :
  counter_consistent
    (add_notification sample_unread (set_notifications [sample_read] initial))
  ∧ add_notification sample_read (mkState [sample_unread; sample_read] 1)
    = mkState [sample_unread; sample_read] 1.
Proof.
  destruct unread_count_tracks_notifications
    as (Hset & _ & _ & Hadd & _ & Hdup & _).
  split.
  - apply Hadd, Hset.
  - apply Hdup. simpl. discriminate.
Defined.

Example add_notification_new :
  add_notification sample_unread (mkState [sample_read] 0)
  = mkState [sample_unread; sample_read] 1.
Proof. reflexivity. Qed.

End StoreFacts.

(* ===================================================================== *)
(** ** Registration *)
(* ===================================================================== *)

Section AuthFacts.
Import Auth.



Lemma filter_hit {A} (f : A → bool) (l : list A) (x : A) :
  In x l → f x = true → (0 <? length (List.filter f l))%nat = true.
Proof.
  intros Hin Hf. apply Nat.ltb_lt.
  assert (Hx : In x (List.filter f l)) by (apply List.filter_In; auto).
  destruct (List.filter f l); [destruct Hx | simpl; lia].
Qed.

(** C7. Registering with an address that already belongs to a user is
    answered with status 400 and an error body, and the store is left
    as it was: no user row is inserted. Addresses are compared the way
    the store keeps them, in lower case. *)
Theorem register_existing_email_rejected
    (e : env) (req : register_body) (db : Db.database)
    (u : Db.User.row) (addr : string) :
  emails_lowercase db →
  In u (Db.users db) →
  email req = Some addr →
  Js.toLowerCase (Db.User.email u) = Js.toLowerCase addr →
  status (fst (register e req db)) = 400%Z
  ∧ (∃ message, body (fst (register e req db)) = ErrorBody message)
  ∧ snd (register e req db) = db.
Proof.
  intros Hlow Hin Hreq Hsame. unfold register.
  destruct (missing (email req) || missing (password req) || missing (name req)).
  { simpl. eauto. }
  rewrite Hreq. simpl.
  assert (Hstored : Db.User.email u = Js.toLowerCase addr).
  { unfold emails_lowercase in Hlow. rewrite List.Forall_forall in Hlow.
    rewrite <- (Hlow u Hin). exact Hsame. }
  rewrite (filter_hit _ _ u Hin).
  - simpl. eauto.
  - apply String.eqb_eq. exact Hstored.
Qed.

Lemma seed_emails_lowercase : emails_lowercase Seed.db.
Proof. repeat constructor. Qed.

Lemma register_existing_email_rejected_witness :
  let req := mkBody (Some "Bob@Example.com") (Some "secret") (Some "Bobby") in
  status (fst (register sample_env req Seed.db)) = 400%Z
  ∧ (∃ message, body (fst (register sample_env req Seed.db)) = ErrorBody message)
  ∧ snd (register sample_env req Seed.db) = Seed.db.
Proof.
  apply (register_existing_email_rejected sample_env _ Seed.db
           (Db.User.mk 2 "bob@example.com" "hashed_pw_bob" "Bob Smith" "regular"
              "2024-06-02T09:30:00Z" "2024-06-02T09:30:00Z" (Db.mkSettings true true))
           "Bob@Example.com").
  - repeat constructor.
  - simpl. tauto.
  - reflexivity.
  - reflexivity.
Defined.


(** A new address with a fresh identifier is accepted and stored once. *)
Example register_new_user :
  let req := mkBody (Some "Frank@Example.com") (Some "secret") (Some "Frank") in
  status (fst (register sample_env req Seed.db)) = 200%Z
  ∧ List.map Db.User.email (Db.users (snd (register sample_env req Seed.db)))
    = (List.map Db.User.email Seed.users ++ ["frank@example.com"])%list.
Proof. split; reflexivity. Qed.

Example register_missing_name :
  fst (register sample_env (mkBody (Some "x@example.com") (Some "pw") None) Seed.db)
  = mkResponse 400 (ErrorBody "email, password and name are required").
Proof. reflexivity. Qed.

End AuthFacts.

(* ===================================================================== *)
(** ** Pagination of task lists *)
(* ===================================================================== *)

Section PaginationFacts.
Import Engine.
Local Open Scope nat_scope.

Lemma ceil_div_covers n d : 0 < d → n ≤ ceil_div n d * d.
Proof.
  intros Hd. unfold ceil_div.
  pose proof (Nat.mul_succ_div_gt (n + d - 1) d ltac:(lia)). nia.
Qed.

Lemma ceil_div_least n d k : 0 < d → n ≤ k * d → ceil_div n d ≤ k.
Proof.
  intros Hd Hk. unfold ceil_div.
  pose proof (Nat.Div0.mul_div_le (n + d - 1) d). nia.
Qed.

Lemma page_lookup {A} (l : list A) (page size i : nat) :
  i < size →
  firstn size (skipn ((page - 1) * size) l) !! i = l !! ((page - 1) * size + i).
Proof.
  intros Hi. rewrite lookup_take, decide_True by exact Hi. apply lookup_drop.
Qed.

(** C6. For every filtered list and every positive page size, the
    reported [total_items] is the size of the filtered set and
    [total_pages] is the ceiling of [total_items / page_size] (the least
    number of pages of that size that hold all items); pages are
    numbered from 1, page [p] holding the items at offsets
    [(p-1)*page_size ..]; and with 25 items and pages of 10, page 3 has
    exactly 5 items and [total_pages] is 3. *)
Theorem paginate_reports_totals {A : Type} (filtered : list A) (page size : nat) :
  0 < size → 1 ≤ page →
  let items := fst (paginate filtered page size) in
  let info := snd (paginate filtered page size) in
  total_items info = length filtered
  ∧ current_page info = page
  ∧ page_size info = size
  ∧ length filtered ≤ total_pages info * size
  ∧ (∀ k, length filtered ≤ k * size → total_pages info ≤ k)
  ∧ (∀ i, i < size → items !! i = filtered !! ((page - 1) * size + i))
  ∧ length items = Nat.min size (length filtered - (page - 1) * size)
  ∧ (length filtered = 25 → size = 10 → page = 3 →
     length items = 5 ∧ total_pages info = 3).
Proof.
  intros Hs Hp. simpl.
  assert (Hlen : length (firstn size (skipn ((page - 1) * size) filtered))
                 = Nat.min size (length filtered - (page - 1) * size)).
  { rewrite length_take, length_drop. reflexivity. }
  repeat split.
  - by apply ceil_div_covers.
  - intros k. by apply ceil_div_least.
  - intros i. apply page_lookup.
  - exact Hlen.
  - rewrite Hlen. subst. rewrite H. reflexivity.
  - subst. rewrite H. reflexivity.
Qed.

Lemma paginate_reports_totals_witness :
  length (fst (paginate twenty_five 3 10)) = 5
  ∧ total_pages (snd (paginate twenty_five 3 10)) = 3.
Proof.
  apply (paginate_reports_totals twenty_five 3 10); [lia | lia | reflexivity ..].
Defined.

Example last_page_items : fst (paginate twenty_five 3 10) = [21; 22; 23; 24; 25].
Proof. reflexivity. Qed.

Example first_page_items :
  fst (paginate twenty_five 1 10) = [1; 2; 3; 4; 5; 6; 7; 8; 9; 10].
Proof. reflexivity. Qed.

Example page_info :
  snd (paginate twenty_five 3 10) = mkPagination 3 3 10 25.
Proof. reflexivity. Qed.

End PaginationFacts.

(* ===================================================================== *)
(** ** Deleting tasks and comments *)
(* ===================================================================== *)

Section DeletionFacts.
Import Db Engine.

Lemma existsb_eqb_elem (p : Z) (dead : list Z) :
  existsb (Z.eqb p) dead = bool_decide (p ∈ dead).
Proof.
  induction dead as [|d dead IH]; cbn [existsb].
  - symmetry. apply bool_decide_eq_false. by intros H%elem_of_nil.
  - rewrite IH. destruct (Z.eqb_spec p d) as [->|Hne]; cbn [orb].
    + symmetry. apply bool_decide_eq_true. left.
    + apply bool_decide_ext. rewrite elem_of_cons. tauto.
Qed.

Lemma set_parent_null_orphaned dead c : orphaned dead c (set_parent_null dead c).
Proof.
  unfold orphaned, set_parent_null.
  destruct (Comment.parent_comment_id c) as [p|] eqn:E.
  - rewrite existsb_eqb_elem. destruct (bool_decide (p ∈ dead)); simpl.
    + tauto.
    + rewrite E. tauto.
  - rewrite E. tauto.
Qed.

Lemma map_set_parent_null_orphaned dead l :
  Forall2 (orphaned dead) l (List.map (set_parent_null dead) l).
Proof.
  induction l as [|c l IH]; simpl; constructor; [apply set_parent_null_orphaned | exact IH].
Qed.

Lemma Forall_filter_negb {A} (f : A → bool) (l : list A) :
  Forall (λ x, f x = false) (List.filter (λ x, negb (f x)) l).
Proof.
  apply List.Forall_forall. intros x [_ H]%List.filter_In.
  by apply negb_true_iff in H.
Qed.

Lemma Forall_map_task_id tid dead l :
  Forall (λ c, (Comment.task_id c =? tid)%Z = false) l →
  Forall (λ c, Comment.task_id c ≠ tid) (List.map (set_parent_null dead) l).
Proof.
  induction 1 as [|c l Hc _ IH]; simpl; constructor; [|exact IH].
  destruct (set_parent_null_orphaned dead c) as (_ & Ht & _).
  rewrite Ht. by apply Z.eqb_neq.
Qed.

(** C3. Deleting an existing task succeeds; afterwards no assignment,
    comment or reminder row of that task is left, and the notifications
    table is exactly what it was, so every notification whose
    [reference_id] is the deleted task is still there, unchanged. The
    assignment and reminder rows of other tasks stay as they were. *)
Theorem delete_task_cascades (tid : Z) (db : database) :
  task_exists db tid = true →
  ∃ db', delete_task tid db = Ok db'
    ∧ task_exists db' tid = false
    ∧ Forall (λ a, Assignee.task_id a ≠ tid) (task_assignees db')
    ∧ Forall (λ c, Comment.task_id c ≠ tid) (task_comments db')
    ∧ Forall (λ r, Reminder.task_id r ≠ tid) (task_reminders db')
    ∧ notifications db' = notifications db
    ∧ (∀ n, In n (notifications db) →
            Notification.reference_id n = Some tid →
            In n (notifications db'))
    ∧ (∀ a, In a (task_assignees db) → Assignee.task_id a ≠ tid →
            In a (task_assignees db'))
    ∧ (∀ r, In r (task_reminders db) → Reminder.task_id r ≠ tid →
            In r (task_reminders db')).
Proof.
  intros Hex. exists (delete_task_row tid db). unfold delete_task. rewrite Hex.
  split; [reflexivity|]. unfold delete_task_row, task_exists. simpl.
  split; [|split; [|split; [|split; [|split; [|split; [|split]]]]]].
  - apply not_true_is_false. intros H. apply existsb_exists in H as (t & Hin & Ht).
    apply List.filter_In in Hin as [_ Hin]. by rewrite Ht in Hin.
  - eapply Forall_impl; [apply (Forall_filter_negb (λ a, (Assignee.task_id a =? tid)%Z))|].
    intros a. simpl. apply Z.eqb_neq.
  - apply Forall_map_task_id.
    apply (Forall_filter_negb (λ c, (Comment.task_id c =? tid)%Z)).
  - eapply Forall_impl; [apply (Forall_filter_negb (λ r, (Reminder.task_id r =? tid)%Z))|].
    intros r. simpl. apply Z.eqb_neq.
  - reflexivity.
  - intros n Hin _. exact Hin.
  - intros a Hin Hne. apply List.filter_In. split; [exact Hin|].
    apply negb_true_iff. by apply Z.eqb_neq.
  - intros r Hin Hne. apply List.filter_In. split; [exact Hin|].
    apply negb_true_iff. by apply Z.eqb_neq.
Qed.

Lemma delete_task_cascades_witness :
  ∃ db', delete_task 101 Seed.db = Ok db'
    ∧ task_exists db' 101 = false
    ∧ Forall (λ a, Assignee.task_id a ≠ 101%Z) (task_assignees db')
    ∧ Forall (λ c, Comment.task_id c ≠ 101%Z) (task_comments db')
    ∧ Forall (λ r, Reminder.task_id r ≠ 101%Z) (task_reminders db')
    ∧ notifications db' = notifications Seed.db
    ∧ (∀ n, In n (notifications Seed.db) →
            Notification.reference_id n = Some 101%Z →
            In n (notifications db'))
    ∧ (∀ a, In a (task_assignees Seed.db) → Assignee.task_id a ≠ 101%Z →
            In a (task_assignees db'))
    ∧ (∀ r, In r (task_reminders Seed.db) → Reminder.task_id r ≠ 101%Z →
            In r (task_reminders db')).
Proof.
  apply (delete_task_cascades 101 Seed.db). reflexivity.
Defined.

Example delete_seed_task_101 :
  option_map
    (λ db', (List.map Assignee.user_id (task_assignees db'),
             List.map Comment.comment_id (task_comments db'),
             List.map Reminder.reminder_id (task_reminders db'),
             List.map Notification.notification_id (notifications db')))
    (match delete_task 101 Seed.db with Ok db' => Some db' | Err _ => None end)
  = Some ([2; 3; 4; 5; 1], [203; 204; 206; 207], [402; 403],
          [301; 302; 303; 304; 305])%Z.
Proof. reflexivity. Qed.

Example delete_missing_task : delete_task 999 Seed.db = Err NotFoundError.
Proof. reflexivity. Qed.

Lemma find_comment_exists db cid c :
  find_comment db cid = Some c →
  In c (task_comments db) ∧ Comment.comment_id c = cid.
Proof.
  intros H. apply List.find_some in H as [Hin Heq].
  split; [exact Hin | by apply Z.eqb_eq].
Qed.

(** C4. Deleting a comment, by its author or by a manager, succeeds and
    removes that row only: the comments table afterwards is the
    remaining rows in their order, each with every column as before,
    except that a [parent_comment_id] that pointed at the deleted
    comment is null. In particular a reply to the deleted comment is
    still there with a null parent. The other tables are untouched. *)
Theorem delete_comment_orphans_replies
    (cid actor : Z) (db : database) (target : Comment.row) :
  find_comment db cid = Some target →
  Comment.author_user_id target = actor ∨ is_manager db actor = true →
  ∃ db', delete_comment cid actor db = Ok db'
    ∧ Forall (λ c, Comment.comment_id c ≠ cid) (task_comments db')
    ∧ Forall2 (orphaned [cid])
        (List.filter (λ c, negb (Comment.comment_id c =? cid)%Z) (task_comments db))
        (task_comments db')
    ∧ (∀ reply, In reply (task_comments db) →
         Comment.comment_id reply ≠ cid →
         Comment.parent_comment_id reply = Some cid →
         ∃ reply', In reply' (task_comments db')
           ∧ orphaned [cid] reply reply'
           ∧ Comment.parent_comment_id reply' = None)
    ∧ tasks db' = tasks db
    ∧ task_assignees db' = task_assignees db
    ∧ notifications db' = notifications db
    ∧ task_reminders db' = task_reminders db.
Proof.
  intros Hfind Hauth. exists (delete_comment_row cid db).
  unfold delete_comment. rewrite Hfind.
  assert (Hgo : (Comment.author_user_id target =? actor)%Z || is_manager db actor = true).
  { destruct Hauth as [-> | ->]; [by rewrite Z.eqb_refl | apply orb_true_r]. }
  rewrite Hgo. split; [reflexivity|]. unfold delete_comment_row. simpl.
  split; [|split; [|split; [|tauto]]].
  - apply List.Forall_forall. intros c' Hin.
    apply List.in_map_iff in Hin as (c & <- & Hin).
    apply List.filter_In in Hin as [_ Hne].
    destruct (set_parent_null_orphaned [cid] c) as [-> _].
    apply negb_true_iff in Hne. by apply Z.eqb_neq.
  - apply map_set_parent_null_orphaned.
  - intros reply Hin Hne Hparent.
    exists (set_parent_null [cid] reply). split; [|split].
    + apply List.in_map. apply List.filter_In. split; [exact Hin|].
      apply negb_true_iff. by apply Z.eqb_neq.
    + apply set_parent_null_orphaned.
    + unfold set_parent_null. rewrite Hparent. simpl. by rewrite Z.eqb_refl.
Qed.

Lemma delete_comment_orphans_replies_witness :
  ∃ db', delete_comment 201 2 Seed.db = Ok db'
    ∧ Forall (λ c, Comment.comment_id c ≠ 201%Z) (task_comments db').
Proof.
  destruct (delete_comment_orphans_replies 201 2 Seed.db
              (Comment.mk 201 101 2
                 "I started working on the wireframes, will share soon."
                 "2024-06-05T10:00:00Z" None None))
    as (db' & Hok & Hgone & _).
  - reflexivity.
  - left. reflexivity.
  - exists db'. split; [exact Hok | exact Hgone].
Defined.

Example delete_seed_comment_201 :
  option_map
    (λ db', List.map (λ c, (Comment.comment_id c, Comment.parent_comment_id c))
                     (task_comments db'))
    (match delete_comment 201 2 Seed.db with Ok db' => Some db' | Err _ => None end)
  = Some [(202, None); (203, None); (204, None); (205, None); (206, None);
          (207, None)]%Z.
Proof. reflexivity. Qed.

Example delete_comment_by_stranger :
  delete_comment 201 4 Seed.db = Err ForbiddenError.
Proof. reflexivity. Qed.

Example delete_comment_by_manager :
  match delete_comment 201 5 Seed.db with Ok _ => true | Err _ => false end = true.
Proof. reflexivity. Qed.

End DeletionFacts.

(* ===================================================================== *)
(** ** Assignments: the composite key and the assignee set *)
(* ===================================================================== *)

Section AssignmentFacts.
Import Db Engine.
Local Open Scope nat_scope.

Lemma key_matches_iff tid uid a :
  key_matches tid uid a = true ↔ assignee_key a = (tid, uid).
Proof.
  unfold key_matches, assignee_key. rewrite andb_true_iff, !Z.eqb_eq.
  split; [intros [-> ->]; reflexivity | intros [= -> ->]; done].
Qed.

Lemma is_assigned_elem l tid uid :
  is_assigned l tid uid = true ↔ (tid, uid) ∈ List.map assignee_key l.
Proof.
  unfold is_assigned. fold (key_matches tid uid).
  rewrite existsb_exists, list_elem_of_In, List.in_map_iff.
  split; intros (a & H1 & H2); exists a.
  - split; [by apply key_matches_iff | exact H1].
  - split; [exact H2 | by apply key_matches_iff].
Qed.

Lemma unique_key_rows l tid uid :
  NoDup (List.map assignee_key l) →
  length (List.filter (key_matches tid uid) l) ≤ 1.
Proof.
  induction l as [|a l IH]; simpl; [lia|].
  intros [Hnot Hnd]%NoDup_cons. specialize (IH Hnd).
  destruct (key_matches tid uid a) eqn:E; [|exact IH].
  apply key_matches_iff in E. rewrite E in Hnot.
  assert (Hnone : List.filter (key_matches tid uid) l = []).
  { destruct (List.filter (key_matches tid uid) l) as [|b k] eqn:Ef; [done|].
    exfalso. apply Hnot. apply list_elem_of_In, List.in_map_iff. exists b.
    assert (Hb : In b (List.filter (key_matches tid uid) l)) by (rewrite Ef; left; done).
    apply List.filter_In in Hb as [Hb1 Hb2]. split; [by apply key_matches_iff | done]. }
  rewrite Hnone. simpl. lia.
Qed.

Lemma assigned_has_row l tid uid :
  is_assigned l tid uid = true →
  1 ≤ length (List.filter (key_matches tid uid) l).
Proof.
  unfold is_assigned. fold (key_matches tid uid).
  intros (a & Hin & Ha)%existsb_exists.
  assert (Hf : In a (List.filter (key_matches tid uid) l)) by (apply List.filter_In; done).
  destruct (List.filter _ l); [destruct Hf | simpl; lia].
Qed.

Lemma exactly_one_row db tid uid :
  assignee_keys_unique db → assigned db tid uid = true →
  length (assignee_rows tid uid db) = 1.
Proof.
  intros Hu Ha. unfold assignee_rows. fold (key_matches tid uid).
  pose proof (unique_key_rows _ tid uid Hu).
  pose proof (assigned_has_row _ tid uid Ha). lia.
Qed.

(** The primary key is what [INSERT INTO task_assignees] maintains. *)
Lemma insert_assignee_keeps_key_unique a db db' :
  assignee_keys_unique db → insert_assignee a db = Some db' →
  assignee_keys_unique db'.
Proof.
  unfold insert_assignee, assignee_keys_unique. intros Hu.
  destruct (is_assigned _ _ _) eqn:E; [discriminate|].
  destruct (negb _); [discriminate|]. destruct (negb _); [discriminate|].
  intros [= <-]. simpl. rewrite List.map_app. apply NoDup_app.
  split; [exact Hu|]. split; [|apply NoDup_singleton].
  intros k Hk Hk'. apply list_elem_of_singleton in Hk'. subst k.
  apply is_assigned_elem in Hk. unfold assignee_key in Hk. simpl in Hk.
  congruence.
Qed.

(** A second insert of the same pair is refused by the key. *)
Lemma insert_assignee_duplicate a db :
  assigned db (Assignee.task_id a) (Assignee.user_id a) = true →
  insert_assignee a db = None.
Proof. unfold assigned, insert_assignee. by intros ->. Qed.

Lemma assign_post_refl tid db : assign_post tid db db.
Proof. by constructor. Qed.

Lemma assign_post_trans tid db1 db2 db3 :
  assign_post tid db1 db2 → assign_post tid db2 db3 → assign_post tid db1 db3.
Proof.
  intros [] []. constructor; try congruence; auto.
  - intros t u H. rewrite post_rows1; auto.
  - intros t u H. rewrite post_frame1; auto.
Qed.

Lemma assign_ok tid now db uid :
  task_exists db tid = true → user_exists db uid = true →
  ∃ db', assign tid now db uid = Some db'
    ∧ assign_post tid db db' ∧ assigned db' tid uid = true.
Proof.
  intros Ht Hu. unfold assign.
  destruct (is_assigned (task_assignees db) tid uid) eqn:E.
  { exists db. split; [done|]. split; [apply assign_post_refl | exact E]. }
  pose proof (eq_refl (insert_assignee (Assignee.mk tid uid now) db)) as Hins.
  unfold insert_assignee at 2 in Hins. simpl in Hins.
  rewrite E, Ht, Hu in Hins. simpl in Hins. rewrite Hins.
  eexists. split; [reflexivity|]. split.
  - constructor; simpl; try reflexivity.
    + intros Hun. eapply insert_assignee_keeps_key_unique; [exact Hun | exact Hins].
    + intros t u Ha. unfold assignee_rows. simpl. rewrite List.filter_app. simpl.
      destruct ((tid =? t)%Z && (uid =? u)%Z) eqn:Ek; [|apply app_nil_r].
      apply andb_true_iff in Ek as [->%Z.eqb_eq ->%Z.eqb_eq].
      unfold assigned in Ha. congruence.
    + intros t u Ha. unfold assigned, is_assigned in *. simpl.
      rewrite existsb_app, Ha. reflexivity.
    + intros t u Hne. unfold assignee_rows. simpl. rewrite List.filter_app. simpl.
      destruct (Z.eqb_spec tid t) as [->|_]; [done|]. simpl. apply app_nil_r.
  - unfold assigned, is_assigned. simpl. rewrite existsb_app. simpl.
    rewrite !Z.eqb_refl. simpl. apply orb_true_r.
Qed.

Lemma assign_all_ok tid now ids : ∀ db,
  task_exists db tid = true → all_users_exist db ids = true →
  ∃ db', assign_all tid now ids db = Some db'
    ∧ assign_post tid db db'
    ∧ ∀ uid, In uid ids → assigned db' tid uid = true.
Proof.
  induction ids as [|uid ids IH]; intros db Ht Hu; simpl.
  { exists db. split; [done|]. split; [apply assign_post_refl | intros ? []]. }
  unfold all_users_exist in Hu. simpl in Hu. apply andb_true_iff in Hu as [Hu1 Hu2].
  destruct (assign_ok tid now db uid Ht Hu1) as (db1 & -> & Hpost1 & Ha1).
  destruct (IH db1) as (db2 & -> & Hpost2 & Ha2).
  - unfold task_exists. rewrite (post_tasks _ _ _ Hpost1). exact Ht.
  - unfold all_users_exist, user_exists. rewrite (post_users _ _ _ Hpost1). exact Hu2.
  - exists db2. split; [done|]. split; [eapply assign_post_trans; eauto|].
    intros v [<-|Hv]; [|by apply Ha2]. by apply (post_mono _ _ _ Hpost2).
Qed.

Lemma task_exists_find db tid :
  task_exists db tid = true → ∃ t, find_task db tid = Some t.
Proof.
  unfold task_exists, find_task. intros (t & Hin & Ht)%existsb_exists.
  destruct (List.find _ (tasks db)) as [t'|] eqn:E; [eauto|].
  by rewrite (List.find_none _ _ E t Hin) in Ht.
Qed.

Lemma task_exists_map (f : Task.row → Task.row) l tid :
  (∀ r, Task.task_id (f r) = Task.task_id r) →
  existsb (λ t, Task.task_id t =? tid)%Z (List.map f l)
  = existsb (λ t, Task.task_id t =? tid)%Z l.
Proof.
  intros Hf. induction l as [|r l IH]; simpl; [done|]. by rewrite Hf, IH.
Qed.

Lemma NoDup_map_filter {A B} (f : A → B) (p : A → bool) (l : list A) :
  NoDup (List.map f l) → NoDup (List.map f (List.filter p l)).
Proof.
  induction l as [|a l IH]; simpl; [done|].
  intros [Hnot Hnd]%NoDup_cons. destruct (p a); simpl; [|auto].
  apply NoDup_cons. split; [|auto].
  intros Hin. apply Hnot. apply list_elem_of_In, List.in_map_iff in Hin as (b & Hb & Hin).
  apply List.filter_In in Hin as [Hin _].
  apply list_elem_of_In, List.in_map_iff. eauto.
Qed.

Lemma filter_filter_implied {A} (p q : A → bool) (l : list A) :
  (∀ x, p x = true → q x = true) →
  List.filter p (List.filter q l) = List.filter p l.
Proof.
  intros H. induction l as [|a l IH]; simpl; [done|].
  destruct (q a) eqn:Eq; simpl.
  - by rewrite IH.
  - destruct (p a) eqn:Ep; [|exact IH]. rewrite (H a Ep) in Eq. discriminate.
Qed.

Lemma listed_true (ids : list Z) (uid : Z) :
  In uid ids → existsb (Z.eqb uid) ids = true.
Proof. intros H. apply existsb_exists. exists uid. by rewrite Z.eqb_refl. Qed.

(** The effect of an update that carries an assignee list. *)
Lemma update_assignees_ok now tid actor req ids db :
  task_exists db tid = true →
  request_ok db req →
  u_assignees req = Some ids →
  ∃ db' h, update_task now tid actor req db = Ok (db', h)
    ∧ users db' = users db
    ∧ task_exists db' tid = true
    ∧ (assignee_keys_unique db → assignee_keys_unique db')
    ∧ (∀ uid, In uid ids → assigned db' tid uid = true)
    ∧ (∀ uid, In uid ids → assigned db tid uid = true →
              assignee_rows tid uid db' = assignee_rows tid uid db)
    ∧ (∀ t u, t ≠ tid → assignee_rows t u db' = assignee_rows t u db).
Proof.
  intros Hex [Htitle Husers] Hids. unfold update_task.
  destruct (task_exists_find db tid Hex) as [t ->].
  rewrite Htitle, Husers, Hids. simpl.
  set (db1 := with_tasks db _).
  rewrite Hids in Husers. simpl in Husers.
  assert (Hex1 : task_exists (drop_unlisted tid ids db1) tid = true).
  { unfold task_exists. simpl. rewrite task_exists_map; [exact Hex|].
    intros r. by destruct (Task.task_id r =? tid)%Z. }
  destruct (assign_all_ok tid now ids (drop_unlisted tid ids db1) Hex1 Husers)
    as (db2 & -> & Hpost & Hall).
  eexists _, _. split; [reflexivity|].
  split; [exact (post_users _ _ _ Hpost)|].
  split; [unfold task_exists; rewrite (post_tasks _ _ _ Hpost); exact Hex1|].
  split; [|split; [exact Hall|split]].
  - intros Hu. apply (post_unique _ _ _ Hpost).
    unfold assignee_keys_unique. simpl. by apply NoDup_map_filter.
  - intros uid Hin Ha.
    assert (Hkeep : assignee_rows tid uid (drop_unlisted tid ids db1)
                    = assignee_rows tid uid db).
    { unfold assignee_rows. simpl. apply filter_filter_implied.
      intros a [_ Hu%Z.eqb_eq]%andb_true_iff. rewrite Hu, (listed_true _ _ Hin).
      apply orb_true_r. }
    rewrite <- Hkeep. apply (post_rows _ _ _ Hpost).
    unfold assigned, is_assigned. fold (key_matches tid uid).
    apply existsb_exists.
    pose proof (assigned_has_row _ tid uid Ha) as Hrow.
    fold (assignee_rows tid uid db) in Hrow. unfold assignee_rows in Hkeep.
    fold (key_matches tid uid) in Hkeep. unfold assignee_rows in Hrow.
    fold (key_matches tid uid) in Hrow. rewrite <- Hkeep in Hrow.
    destruct (List.filter (key_matches tid uid) _) as [|a k] eqn:Ef;
      [simpl in Hrow; lia|].
    assert (Hain : In a (a :: k)) by (left; done). rewrite <- Ef in Hain.
    apply List.filter_In in Hain as [H1 H2]. eauto.
  - intros t' u Hne. rewrite (post_frame _ _ _ Hpost) by done.
    unfold assignee_rows. simpl. apply filter_filter_implied.
    intros a [Ht%Z.eqb_eq _]%andb_true_iff. rewrite Ht.
    destruct (Z.eqb_spec t' tid); [done|reflexivity].
Qed.

(** C2. An update that lists a user among the assignees succeeds, and a
    second update that lists the same user succeeds as well; the
    composite key of [task_assignees] holds after each, so no (task,
    user) pair has more than one row; the pair that was assigned twice
    has exactly one row, and it is the row the first update left. *)
Theorem assignment_unique_and_idempotent
    (now1 now2 : string) (tid actor1 actor2 uid : Z)
    (req1 req2 : update_request) (ids1 ids2 : list Z) (db : database) :
  assignee_keys_unique db →
  task_exists db tid = true →
  request_ok db req1 → u_assignees req1 = Some ids1 → In uid ids1 →
  request_ok db req2 → u_assignees req2 = Some ids2 → In uid ids2 →
  ∃ db1 h1 db2 h2,
    update_task now1 tid actor1 req1 db = Ok (db1, h1)
    ∧ update_task now2 tid actor2 req2 db1 = Ok (db2, h2)
    ∧ (∀ t u, length (assignee_rows t u db1) ≤ 1)
    ∧ (∀ t u, length (assignee_rows t u db2) ≤ 1)
    ∧ length (assignee_rows tid uid db1) = 1
    ∧ length (assignee_rows tid uid db2) = 1
    ∧ assignee_rows tid uid db2 = assignee_rows tid uid db1.
Proof.
  intros Hu Hex Hok1 Hids1 Hin1 Hok2 Hids2 Hin2.
  destruct (update_assignees_ok now1 tid actor1 req1 ids1 db Hex Hok1 Hids1)
    as (db1 & h1 & Hup1 & Husers1 & Hex1 & Hu1 & Hall1 & _).
  assert (Hok2' : request_ok db1 req2).
  { destruct Hok2 as [Ht2 Hx2]. split; [exact Ht2|].
    unfold all_users_exist, user_exists in *. by rewrite Husers1. }
  destruct (update_assignees_ok now2 tid actor2 req2 ids2 db1 Hex1 Hok2' Hids2)
    as (db2 & h2 & Hup2 & _ & _ & Hu2 & Hall2 & Hsame & _).
  exists db1, h1, db2, h2.
  split; [exact Hup1|]. split; [exact Hup2|].
  split; [intros t u; apply unique_key_rows, Hu1, Hu|].
  split; [intros t u; apply unique_key_rows, Hu2, Hu1, Hu|].
  split; [apply exactly_one_row; auto|].
  split; [apply exactly_one_row; auto|].
  apply Hsame; auto.
Qed.

Lemma seed_assignee_keys_unique : assignee_keys_unique Seed.db.
Proof. apply (bool_decide_unpack _). vm_compute. reflexivity. Qed.

Lemma assignment_unique_and_idempotent_witness :
  ∃ db1 h1 db2 h2,
    update_task "2024-06-12T10:00:00Z" 101 1 (only_assignees [2; 3; 4]%Z) Seed.db
      = Ok (db1, h1)
    ∧ update_task "2024-06-12T11:00:00Z" 101 1 (only_assignees [4]%Z) db1
      = Ok (db2, h2)
    ∧ (∀ t u, length (assignee_rows t u db1) ≤ 1)
    ∧ (∀ t u, length (assignee_rows t u db2) ≤ 1)
    ∧ length (assignee_rows 101 4 db1) = 1
    ∧ length (assignee_rows 101 4 db2) = 1
    ∧ assignee_rows 101 4 db2 = assignee_rows 101 4 db1.
Proof.
  apply (assignment_unique_and_idempotent _ _ 101 1 1 4
           (only_assignees [2; 3; 4]%Z) (only_assignees [4]%Z)
           [2; 3; 4]%Z [4]%Z Seed.db).
  - apply (bool_decide_unpack _). vm_compute. reflexivity.
  - reflexivity.
  - split; reflexivity.
  - reflexivity.
  - simpl. tauto.
  - split; reflexivity.
  - reflexivity.
  - simpl. tauto.
Defined.

Example update_twice_on_seed :
  match update_task "2024-06-12T10:00:00Z" 101 1 (only_assignees [2; 3; 4]%Z) Seed.db with
  | Ok (db1, _) =>
      match update_task "2024-06-12T11:00:00Z" 101 1 (only_assignees [4; 4]%Z) db1 with
      | Ok (db2, h2) => Some (assignee_rows 101 4 db2, assignees h2)
      | Err _ => None
      end
  | Err _ => None
  end
  = Some ([Assignee.mk 101 4 "2024-06-12T10:00:00Z"], [(4%Z, "David Brown")]).
Proof. reflexivity. Qed.

Example update_unknown_task :
  update_task "2024-06-12T10:00:00Z" 999 1 (only_assignees [2]%Z) Seed.db
  = Err NotFoundError.
Proof. reflexivity. Qed.

End AssignmentFacts.

(* ===================================================================== *)
(** ** Creating tasks *)
(* ===================================================================== *)

Section CreationFacts.
Import Db Engine.

Lemma find_app_fresh (l : list Task.row) (t : Task.row) :
  existsb (λ r, Task.task_id r =? Task.task_id t)%Z l = false →
  List.find (λ r, Task.task_id r =? Task.task_id t)%Z (l ++ [t]) = Some t.
Proof.
  induction l as [|r l IH]; simpl.
  - intros _. by rewrite Z.eqb_refl.
  - intros [Hr Hl]%orb_false_iff. rewrite Hr. by apply IH.
Qed.

(** Whatever the outcome, a task that [create_task] returns is in
    status To Do. *)
Lemma create_task_status new_id now creator req db db' h :
  create_task new_id now creator req db = Ok (db', h) →
  Task.status (task h) = "To Do".
Proof.
  unfold create_task. destruct (c_title req); [|discriminate].
  destruct (negb _); [discriminate|]. destruct (negb _); [discriminate|].
  destruct (insert_task _ _); [|discriminate].
  destruct (assign_all _ _ _ _); [|discriminate].
  intros [= _ <-]. reflexivity.
Qed.

(** C1. Every valid creation request succeeds, whatever [status] it
    carries, and the task it creates, both as returned and as stored,
    has status To Do. *)
Theorem created_task_is_todo
    (new_id : Z) (now : string) (creator : Z) (req : create_request)
    (db : database) (title : string) :
  c_title req = Some title →
  title_ok title = true →
  all_users_exist db (default [] (c_assignees req)) = true →
  user_exists db creator = true →
  task_exists db new_id = false →
  ∃ db' h, create_task new_id now creator req db = Ok (db', h)
    ∧ Task.status (task h) = "To Do"
    ∧ find_task db' new_id = Some (task h)
    ∧ Task.task_id (task h) = new_id.
Proof.
  intros Htitle Hok Hids Hcreator Hfresh.
  unfold create_task. rewrite Htitle, Hok, Hids. simpl.
  set (values := mkTaskValues _ _ _ _ _ _ _ _ _ _).
  unfold insert_task. simpl. rewrite Hfresh, Hcreator. simpl.
  set (db1 := with_tasks db _).
  assert (Hex1 : task_exists db1 new_id = true).
  { unfold task_exists. simpl. rewrite existsb_app. simpl.
    rewrite Z.eqb_refl. simpl. apply orb_true_r. }
  destruct (assign_all_ok new_id now (default [] (c_assignees req)) db1 Hex1 Hids)
    as (db2 & -> & Hpost & _).
  eexists _, _. split; [reflexivity|]. simpl.
  split; [reflexivity|]. split; [|reflexivity].
  unfold find_task. rewrite (post_tasks _ _ _ Hpost). simpl.
  apply (find_app_fresh (tasks db) (task_of_values values)). exact Hfresh.
Qed.

Lemma created_task_is_todo_witness :
  ∃ db' h, create_task 106 "2024-06-12T09:00:00Z" 1 sample_create Seed.db = Ok (db', h)
    ∧ Task.status (task h) = "To Do"
    ∧ find_task db' 106 = Some (task h)
    ∧ Task.task_id (task h) = 106%Z.
Proof.
  apply (created_task_is_todo 106 _ 1 sample_create Seed.db "Ship release");
    reflexivity.
Defined.

Example create_on_seed :
  match create_task 106 "2024-06-12T09:00:00Z" 1 sample_create Seed.db with
  | Ok (db', h) => Some (task h, assignees h, assignee_rows 106 2 db')
  | Err _ => None
  end
  = Some (Task.mk 106 1 "Ship release" None None "High" "To Do"
            "2024-06-12T09:00:00Z" "2024-06-12T09:00:00Z" ["release"],
          [(2%Z, "Bob Smith")],
          [Assignee.mk 106 2 "2024-06-12T09:00:00Z"]).
Proof. reflexivity. Qed.

Example create_blank_title :
  create_task 106 "2024-06-12T09:00:00Z" 1
    (mkCreate (Some "   ") None None None (Some "Done") None None) Seed.db
  = Err (ValidationError "title is required").
Proof. reflexivity. Qed.

End CreationFacts.

(* ===================================================================== *)
(** ** Trimming and splitting: general facts *)
(* ===================================================================== *)

Section TextFacts.
Import QueryParams JsText.

Lemma trimEnd_cons c s :
  Js.trimEnd (String c s) =
    match Js.trimEnd s with
    | EmptyString => if Js.is_white_space c then EmptyString else String c EmptyString
    | r => String c r
    end.
Proof. reflexivity. Qed.

Lemma trimStart_clean s : clean_start (Js.trimStart s).
Proof.
  induction s as [|c s IH]; simpl; [done|].
  destruct (Js.is_white_space c) eqn:W; [exact IH | exact W].
Qed.

Lemma trimStart_of_clean t : clean_start t → Js.trimStart t = t.
Proof. destruct t as [|c t]; simpl; [done|]. by intros ->. Qed.

Lemma trimEnd_clean t : clean_start t → clean_start (Js.trimEnd t).
Proof.
  destruct t as [|c t]; [done|]. simpl. intros W.
  destruct (Js.trimEnd t); [by rewrite W | exact W].
Qed.

Lemma trimEnd_idempotent s : Js.trimEnd (Js.trimEnd s) = Js.trimEnd s.
Proof.
  induction s as [|c s IH]; [done|].
  rewrite trimEnd_cons. destruct (Js.trimEnd s) as [|a r] eqn:E.
  - destruct (Js.is_white_space c) eqn:W; [done|]. simpl. by rewrite W.
  - rewrite trimEnd_cons, IH. reflexivity.
Qed.

Lemma trim_idempotent s : Js.trim (Js.trim s) = Js.trim s.
Proof.
  unfold Js.trim.
  rewrite (trimStart_of_clean (Js.trimEnd (Js.trimStart s))).
  - apply trimEnd_idempotent.
  - apply trimEnd_clean, trimStart_clean.
Qed.

Lemma trimStart_no_comma s :
  Js.has_comma s = false → Js.has_comma (Js.trimStart s) = false.
Proof.
  induction s as [|c s IH]; simpl; [done|].
  intros H. destruct (Js.is_white_space c); [|exact H].
  apply orb_false_iff in H as [_ H]. by apply IH.
Qed.

Lemma trimEnd_no_comma s :
  Js.has_comma s = false → Js.has_comma (Js.trimEnd s) = false.
Proof.
  induction s as [|c s IH]; [done|].
  intros H. simpl in H. apply orb_false_iff in H as [Hc Hs].
  rewrite trimEnd_cons. specialize (IH Hs).
  destruct (Js.trimEnd s) as [|a r].
  - destruct (Js.is_white_space c); simpl; [done|]. by rewrite Hc.
  - cbn [Js.has_comma]. cbn [Js.has_comma] in IH. by rewrite Hc, IH.
Qed.

Lemma trim_no_comma s : Js.has_comma s = false → Js.has_comma (Js.trim s) = false.
Proof. intros H. by apply trimEnd_no_comma, trimStart_no_comma. Qed.

Lemma split_comma_pieces s :
  Forall (λ p, Js.has_comma p = false) (Js.split_comma s).
Proof.
  induction s as [|c s IH]; simpl; [by repeat constructor|].
  destruct (Ascii.eqb c Js.comma) eqn:E; [by constructor|].
  destruct (Js.split_comma s) as [|p rest]; [by repeat constructor; simpl; rewrite E|].
  inversion IH as [|? ? Hp Hrest]; subst. constructor; [|exact Hrest].
  simpl. by rewrite E, Hp.
Qed.

Lemma trimmed_pieces_plain (pieces : list string) :
  Forall (λ p, Js.has_comma p = false) pieces →
  Forall plain_item (List.filter Js.truthy (List.map Js.trim pieces)).
Proof.
  induction 1 as [|p l Hp _ IH]; simpl; [constructor|].
  destruct (Js.truthy (Js.trim p)) eqn:T; [|exact IH].
  constructor; [|exact IH]. split; [|split].
  - intros E. by rewrite E in T.
  - apply trim_idempotent.
  - by apply trim_no_comma.
Qed.

(** X1. Whatever the query string holds, [parseQueryParamArray] returns
    only entries that are non-empty, free of surrounding white space and
    free of commas; serializing its result and parsing again gives the
    same result. *)
Theorem parse_result_is_normal (param : option string) :
  Forall plain_item (parseQueryParamArray param)
  ∧ parseQueryParamArray
      (Some (serializeQueryParamArray (parseQueryParamArray param)))
    = parseQueryParamArray param.
Proof.
  assert (H : Forall plain_item (parseQueryParamArray param)).
  { unfold parseQueryParamArray. destruct param as [s|]; [|constructor].
    destruct (Js.truthy s); [|constructor].
    apply trimmed_pieces_plain, split_comma_pieces. }
  split; [exact H|].
  rewrite parse_serialize_trims.
  - apply map_trim_fixed. eapply Forall_impl; [exact H|]. by intros x (_ & Ht & _).
  - eapply Forall_impl; [exact H|].
    intros x (Hne & Ht & Hc). split; [by rewrite Ht | exact Hc].
Qed.

End TextFacts.

(* ===================================================================== *)
(** ** Task forms *)
(* ===================================================================== *)

Section FormFacts.
Import QueryParams AppStore TaskForms.

Lemma truthy_nonempty s : Js.truthy s = true ↔ s ≠ "".
Proof. destruct s; simpl; split; done. Qed.

Lemma parse_tags_plain text : Forall plain_item (parse_tags text).
Proof. apply trimmed_pieces_plain, split_comma_pieces. Qed.

(** X2. [handleCreateSave] either reports a blank title and sends
    nothing, or sends a payload whose title is the trimmed input and is
    not empty, whose tags are non-empty, trimmed and comma-free, whose
    description and due date are absent rather than empty, and whose
    assignee list is absent rather than empty. *)
Theorem create_form_payload_is_clean
    (create_title create_description create_due_date : string)
    (create_priority : TaskPriority) (create_tags_text : string)
    (create_assignees : list Z) :
  (Js.trim create_title = ""
   ∧ handleCreateSave create_title create_description create_due_date
       create_priority create_tags_text create_assignees
     = inl "Title is required.")
  ∨ (∃ p,
       handleCreateSave create_title create_description create_due_date
         create_priority create_tags_text create_assignees = inr p
       ∧ title p = Js.trim create_title
       ∧ title p ≠ ""
       ∧ Js.trim (title p) = title p
       ∧ Forall plain_item (tags p)
       ∧ description p ≠ Some ""
       ∧ due_date p ≠ Some ""
       ∧ assignees p ≠ Some []).
Proof.
  unfold handleCreateSave.
  destruct (Js.truthy (Js.trim create_title)) eqn:T; simpl.
  - right. eexists. split; [reflexivity|]. simpl.
    split; [reflexivity|]. split; [by apply truthy_nonempty|].
    split; [apply trim_idempotent|]. split; [apply parse_tags_plain|].
    split; [|split].
    + destruct (Js.truthy (Js.trim create_description)) eqn:D; [|done].
      intros [= E]. by rewrite E in D.
    + destruct (Js.truthy (Js.trim create_due_date)) eqn:D; simpl; [|done].
      intros [= E]. by rewrite E in D.
    + by destruct create_assignees.
  - left. split; [|reflexivity]. by destruct (Js.trim create_title).
Qed.

Lemma split_join_comma_space (l : list string) :
  Forall (λ s, Js.has_comma s = false) l →
  Js.split_comma (JsText.join_comma_space l) =
    match l with
    | [] => [""]
    | x :: rest => x :: List.map (String JsText.space) rest
    end.
Proof.
  induction 1 as [|x l Hx Hl IH]; [done|].
  destruct l as [|y l'].
  - simpl. by apply split_comma_no_comma.
  - change (JsText.join_comma_space (x :: y :: l'))
      with (x ++ String Js.comma
              (String JsText.space (JsText.join_comma_space (y :: l')))).
    rewrite split_comma_append by exact Hx.
    change (Js.split_comma (String JsText.space (JsText.join_comma_space (y :: l'))))
      with (match Js.split_comma (JsText.join_comma_space (y :: l')) with
            | piece :: rest => String JsText.space piece :: rest
            | [] => [String JsText.space EmptyString]
            end).
    rewrite IH. reflexivity.
Qed.

Lemma trim_after_space s : Js.trim (String JsText.space s) = Js.trim s.
Proof. reflexivity. Qed.

(** X3. The tags field of the task detail modal gives back what it was
    shown: for tags that are non-empty, trimmed and comma-free, parsing
    the displayed text ([tags.join(", ")]) returns the same tags. *)
Theorem tags_field_roundtrip (tags : list string) :
  Forall plain_item tags →
  onTagsInputChange (tagsString tags) = tags.
Proof.
  intros H. unfold onTagsInputChange, tagsString, parse_tags.
  rewrite split_join_comma_space
    by (eapply Forall_impl; [exact H|]; by intros x (_ & _ & Hc)).
  destruct H as [|x l Hx Hl]; [reflexivity|].
  cbn [List.map List.filter].
  destruct Hx as (Hne & Ht & _). rewrite Ht.
  apply truthy_nonempty in Hne. rewrite Hne. f_equal.
  induction Hl as [|y l' Hy _ IH]; [reflexivity|].
  cbn [List.map List.filter]. rewrite trim_after_space.
  destruct Hy as (Hyne & Hyt & _). rewrite Hyt.
  apply truthy_nonempty in Hyne. rewrite Hyne. by rewrite IH.
Qed.

Lemma tags_field_roundtrip_witness :
  onTagsInputChange (tagsString ["urgent"; "frontend"; "clientA"])
  = ["urgent"; "frontend"; "clientA"].
Proof.
  apply (tags_field_roundtrip ["urgent"; "frontend"; "clientA"]).
  repeat constructor; discriminate.
Defined.


Example create_form_blank_title :
  handleCreateSave "   " "notes" "" Medium "a, b" [] = inl "Title is required.".
Proof. reflexivity. Qed.

Example create_form_sample :
  handleCreateSave " Ship release " "  " "" High "release, ,ops," [2%Z]
  = inr (mkCreatePayload "Ship release" None None High ["release"; "ops"] (Some [2%Z])).
Proof. reflexivity. Qed.

End FormFacts.

(* ===================================================================== *)
(** ** Middlewares *)
(* ===================================================================== *)

Section MiddlewareFacts.
Import Http.

(** X5. [require_manager_role] lets a request through exactly when the
    token's role is manager or admin; a request without a user is
    answered 401 and every other role, known or unknown, 403. *)
Theorem manager_gate_admits_managers_and_admins (user : option token_user) :
  match user with
  | None => require_manager_role user = Respond 401 "Unauthorized"
  | Some u =>
      (require_manager_role user = Next u
         ↔ role u = "manager" ∨ role u = "admin")
      ∧ (require_manager_role user = Next u
         ∨ require_manager_role user = Respond 403 "Manager role required")
  end.
Proof.
  destruct user as [u|]; [|reflexivity].
  unfold require_manager_role, roleHierarchy. cbn [JsText.indexOf].
  destruct (String.eqb_spec "regular" (role u)) as [E1|N1].
  { simpl. split; [|by right].
    split; [discriminate|]. intros [H|H]; rewrite H in E1; discriminate. }
  destruct (String.eqb_spec "manager" (role u)) as [E2|N2].
  { simpl. split; [|by left]. split; [by left | done]. }
  destruct (String.eqb_spec "admin" (role u)) as [E3|N3].
  { simpl. split; [|by left]. split; [by right | done]. }
  simpl. split; [|by right].
  split; [discriminate|]. intros [H|H]; by rewrite H in *.
Qed.

Lemma split_on_no_sep sep s :
  JsText.has_char sep s = false → JsText.split_on sep s = [s].
Proof.
  induction s as [|c s IH]; simpl; [done|].
  intros H. apply orb_false_iff in H as [Hc Hs]. by rewrite Hc, (IH Hs).
Qed.

Lemma split_on_append sep a r :
  JsText.has_char sep a = false →
  JsText.split_on sep (a ++ String sep r) = a :: JsText.split_on sep r.
Proof.
  induction a as [|c a IH]; simpl; intros H.
  - by rewrite Ascii.eqb_refl.
  - apply orb_false_iff in H as [Hc Ha]. by rewrite Hc, (IH Ha).
Qed.

Lemma truthy_app_sep a sep r : Js.truthy (a ++ String sep r) = true.
Proof. by destruct a. Qed.

(** X6. [auth_middleware] takes the second blank-separated piece of the
    header as the token, whatever the first piece says: with any scheme
    word, a non-empty token is handed to the verifier, and the request
    goes on with the decoded user exactly when the verifier accepts it. *)
Theorem auth_middleware_ignores_scheme
    (verify : string → option token_user) (scheme token : string) :
  JsText.has_char JsText.space scheme = false →
  JsText.has_char JsText.space token = false →
  token ≠ "" →
  auth_middleware verify (Some (scheme ++ String JsText.space token)) =
    match verify token with
    | Some decoded => Next decoded
    | None => Respond 401 "Invalid or expired token"
    end.
Proof.
  intros Hs Ht Hne. unfold auth_middleware.
  rewrite truthy_app_sep. cbn [negb].
  rewrite split_on_append by exact Hs.
  rewrite split_on_no_sep by exact Ht. cbn [nth_error].
  by destruct token.
Qed.

Lemma auth_middleware_ignores_scheme_witness :
  auth_middleware sample_verify (Some "Basic abc.def.ghi")
  = Next (mkTokenUser 1 "alice@example.com" "manager" "Alice Johnson").
Proof.
  apply (auth_middleware_ignores_scheme sample_verify "Basic" "abc.def.ghi");
    [reflexivity | reflexivity | discriminate].
Defined.

(** X7. [auth_middleware] never lets a request through without a token
    the verifier accepted, and a header without a blank (a bare token or
    a bare scheme word) is answered 401 whatever the verifier would say. *)
Theorem auth_middleware_requires_verified_token
    (verify : string → option token_user) (authorization : option string) :
  (∀ u, auth_middleware verify authorization = Next u →
        ∃ token, token ≠ "" ∧ verify token = Some u)
  ∧ (∀ h, authorization = Some h → h ≠ "" →
          JsText.has_char JsText.space h = false →
          auth_middleware verify authorization
          = Respond 401 "Bearer token missing").
Proof.
  split.
  - intros u. unfold auth_middleware.
    destruct authorization as [h|]; [|discriminate].
    destruct (negb (Js.truthy h)); [discriminate|].
    destruct (nth_error _ 1) as [token|]; [|discriminate].
    destruct (Js.truthy token) eqn:T; simpl; [|discriminate].
    destruct (verify token) as [d|] eqn:V; [|discriminate].
    intros [= <-]. exists token. split; [|exact V]. by destruct token.
  - intros h -> Hne Hs. unfold auth_middleware.
    rewrite split_on_no_sep by exact Hs. simpl.
    by destruct h.
Qed.

Lemma auth_middleware_requires_verified_token_witness :
  auth_middleware sample_verify (Some "abc.def.ghi")
  = Respond 401 "Bearer token missing".
Proof.
  apply (auth_middleware_requires_verified_token sample_verify
           (Some "abc.def.ghi") ) with (h := "abc.def.ghi");
    [reflexivity | discriminate | reflexivity].
Defined.

Example auth_header_missing :
  auth_middleware sample_verify None = Respond 401 "Authorization header missing".
Proof. reflexivity. Qed.

Example auth_double_blank :
  auth_middleware sample_verify (Some "Bearer  abc.def.ghi")
  = Respond 401 "Bearer token missing".
Proof. reflexivity. Qed.

Example manager_gate_regular :
  require_manager_role (Some (mkTokenUser 2 "bob@example.com" "regular" "Bob Smith"))
  = Respond 403 "Manager role required".
Proof. reflexivity. Qed.

End MiddlewareFacts.

(* ===================================================================== *)
(** ** Registration and login together *)
(* ===================================================================== *)

Section SessionFacts.
Import Auth Http.













Example login_unknown_and_wrong_password_look_alike :
  login (λ p h, String.eqb h ("hashed_pw_" ++ p)) (λ _ mail _ _, "jwt:" ++ mail)
        (mkLogin (Some "nobody@example.com") (Some "x")) Seed.db
  = login (λ p h, String.eqb h ("hashed_pw_" ++ p)) (λ _ mail _ _, "jwt:" ++ mail)
        (mkLogin (Some "bob@example.com") (Some "wrong")) Seed.db.
Proof. reflexivity. Qed.

End SessionFacts.

(* ===================================================================== *)
(** ** The schema's constraints under registration and deletion *)
(* ===================================================================== *)

Section ConstraintFacts.
Import Db Constraints.






Lemma seed_consistent : consistent Seed.db.
Proof.
  split.
  - constructor; apply (bool_decide_unpack _); vm_compute; reflexivity.
  - constructor; repeat constructor.
Qed.


Lemma set_parent_null_id dead c :
  Comment.comment_id (set_parent_null dead c) = Comment.comment_id c.
Proof. by destruct (set_parent_null_orphaned dead c) as (? & _). Qed.

Lemma set_parent_null_task dead c :
  Comment.task_id (set_parent_null dead c) = Comment.task_id c.
Proof. by destruct (set_parent_null_orphaned dead c) as (_ & ? & _). Qed.

Lemma set_parent_null_author dead c :
  Comment.author_user_id (set_parent_null dead c) = Comment.author_user_id c.
Proof. by destruct (set_parent_null_orphaned dead c) as (_ & _ & ? & _). Qed.

Lemma map_set_parent_null_ids dead l :
  List.map Comment.comment_id (List.map (set_parent_null dead) l)
  = List.map Comment.comment_id l.
Proof.
  rewrite List.map_map. apply List.map_ext. intros c. apply set_parent_null_id.
Qed.

Lemma Forall_filter_keep {A} (P : A → Prop) (f : A → bool) (l : list A) :
  Forall P l → Forall P (List.filter f l).
Proof.
  rewrite !List.Forall_forall. intros H x [Hx _]%List.filter_In. by apply H.
Qed.

(** The rows that remain after some rows were deleted keep resolving
    their references, as long as every reference of a remaining row
    points at a remaining row. *)
Lemma existsb_survivor {A} (f keep : A → bool) (l : list A) :
  (∃ x, In x l ∧ f x = true ∧ keep x = true) →
  existsb f (List.filter keep l) = true.
Proof.
  intros (x & Hin & Hf & Hk). apply existsb_exists. exists x.
  split; [by apply List.filter_In | exact Hf].
Qed.

Lemma comment_survivor dead (keep : Comment.row → bool) l p :
  (∃ c, In c l ∧ Comment.comment_id c = p ∧ keep c = true) →
  existsb (λ c, Comment.comment_id c =? p)%Z
    (List.map (set_parent_null dead) (List.filter keep l)) = true.
Proof.
  intros (c & Hin & Hid & Hk). apply existsb_exists.
  exists (set_parent_null dead c). split.
  - apply List.in_map, List.filter_In. done.
  - rewrite set_parent_null_id. by apply Z.eqb_eq.
Qed.

Lemma parent_after_null dead c :
  match Comment.parent_comment_id (set_parent_null dead c) with
  | Some p => Comment.parent_comment_id c = Some p ∧ existsb (Z.eqb p) dead = false
  | None => True
  end.
Proof.
  unfold set_parent_null. destruct (Comment.parent_comment_id c) as [p|] eqn:E.
  - destruct (existsb (Z.eqb p) dead) eqn:D; simpl; [done|]. by rewrite E.
  - by rewrite E.
Qed.

(** Deleting comments by any rule [gone], with the parent pointers into
    the deleted ids set to null, leaves the comment table's key and
    parent references intact. *)
Lemma comments_after_delete (gone : Comment.row → bool) (l : list Comment.row) :
  let dead := List.map Comment.comment_id (List.filter gone l) in
  let l' := List.map (set_parent_null dead)
                     (List.filter (λ c, negb (gone c)) l) in
  Forall (λ c, match Comment.parent_comment_id c with
               | Some p => existsb (λ x, Comment.comment_id x =? p)%Z l = true
               | None => True
               end) l →
  Forall (λ c, match Comment.parent_comment_id c with
               | Some p => existsb (λ x, Comment.comment_id x =? p)%Z l' = true
               | None => True
               end) l'.
Proof.
  intros dead l' H. apply List.Forall_forall. intros c' Hin.
  apply List.in_map_iff in Hin as (c & <- & Hin).
  apply List.filter_In in Hin as [Hin _].
  pose proof (parent_after_null dead c) as Hp.
  destruct (Comment.parent_comment_id (set_parent_null dead c)) as [p|]; [|done].
  destruct Hp as [Hparent Hlive].
  rewrite List.Forall_forall in H. specialize (H c Hin). rewrite Hparent in H.
  apply existsb_exists in H as (cp & Hcp & Hid). apply Z.eqb_eq in Hid.
  apply comment_survivor. exists cp. split; [done|]. split; [done|].
  apply negb_true_iff. apply not_true_is_false. intros Hg.
  assert (Hd : existsb (Z.eqb p) dead = true).
  { apply existsb_exists. exists p. split; [|apply Z.eqb_refl].
    subst dead. apply List.in_map_iff. exists cp. split; [done|].
    by apply List.filter_In. }
  congruence.
Qed.

Lemma task_survivor tid db x :
  task_exists db x = true → x ≠ tid →
  existsb (λ t, Task.task_id t =? x)%Z
    (List.filter (λ t, negb (Task.task_id t =? tid)%Z) (tasks db)) = true.
Proof.
  unfold task_exists. intros (t & Hin & Ht)%existsb_exists Hne.
  apply existsb_survivor. exists t. split; [done|]. split; [done|].
  apply Z.eqb_eq in Ht. apply negb_true_iff, Z.eqb_neq. congruence.
Qed.

(** X13. Deleting a task row with the schema's referential actions
    leaves no dangling reference and no duplicate key: if the store
    satisfies every key and foreign key before, it does so afterwards. *)
Theorem delete_task_row_keeps_constraints (tid : Z) (db : database) :
  consistent db → consistent (delete_task_row tid db).
Proof.
  intros [[] []]. split.
  - constructor; simpl; try assumption.
    + by apply NoDup_map_filter.
    + by apply NoDup_map_filter.
    + rewrite map_set_parent_null_ids. by apply NoDup_map_filter.
    + by apply NoDup_map_filter.
  - constructor; unfold task_exists, user_exists, comment_exists; simpl.
    + by apply Forall_filter_keep.
    + apply List.Forall_forall. intros a [Hin Hne]%List.filter_In.
      rewrite List.Forall_forall in fk_assignee_task0.
      apply task_survivor; [by apply fk_assignee_task0|].
      by apply negb_true_iff, Z.eqb_neq in Hne.
    + by apply Forall_filter_keep.
    + apply List.Forall_forall. intros c' Hin.
      apply List.in_map_iff in Hin as (c & <- & Hin).
      apply List.filter_In in Hin as [Hin Hne].
      rewrite set_parent_null_task.
      rewrite List.Forall_forall in fk_comment_task0.
      apply task_survivor; [by apply fk_comment_task0|].
      by apply negb_true_iff, Z.eqb_neq in Hne.
    + apply List.Forall_forall. intros c' Hin.
      apply List.in_map_iff in Hin as (c & <- & Hin).
      apply List.filter_In in Hin as [Hin _].
      rewrite set_parent_null_author.
      rewrite List.Forall_forall in fk_comment_author0. by apply fk_comment_author0.
    + apply (comments_after_delete (λ c, (Comment.task_id c =? tid)%Z)).
      exact fk_comment_parent0.
    + assumption.
    + apply List.Forall_forall. intros r [Hin Hne]%List.filter_In.
      rewrite List.Forall_forall in fk_reminder_task0.
      apply task_survivor; [by apply fk_reminder_task0|].
      by apply negb_true_iff, Z.eqb_neq in Hne.
Qed.

Lemma delete_task_row_keeps_constraints_witness :
  consistent (delete_task_row 101 Seed.db).
Proof.
  apply (delete_task_row_keeps_constraints 101 Seed.db).
  split.
  - constructor; apply (bool_decide_unpack _); vm_compute; reflexivity.
  - constructor; repeat constructor.
Defined.

Lemma dead_single (cid : Z) (l : list Comment.row) :
  NoDup (List.map Comment.comment_id l) →
  existsb (λ c, Comment.comment_id c =? cid)%Z l = true →
  List.map Comment.comment_id
    (List.filter (λ c, (Comment.comment_id c =? cid)%Z) l) = [cid].
Proof.
  induction l as [|c l IH]; simpl; [discriminate|].
  intros [Hnot Hnd]%NoDup_cons H.
  destruct (Z.eqb_spec (Comment.comment_id c) cid) as [E|N]; simpl.
  - rewrite E. f_equal.
    destruct (List.filter _ l) as [|d k] eqn:F; [done|].
    exfalso. apply Hnot. rewrite E.
    assert (Hd : In d (List.filter (λ c, (Comment.comment_id c =? cid)%Z) l))
      by (rewrite F; by left).
    apply List.filter_In in Hd as [Hd1 Hd2]. apply Z.eqb_eq in Hd2.
    apply list_elem_of_In, List.in_map_iff. eauto.
  - simpl in H. by apply IH.
Qed.

(** X14. Deleting a comment row with [ON DELETE SET NULL] on the parent
    pointer leaves no dangling reference and no duplicate key: if the
    store satisfies every key and foreign key before and holds the
    comment, it satisfies them afterwards. *)
Theorem delete_comment_row_keeps_constraints (cid : Z) (db : database) :
  consistent db → comment_exists db cid = true →
  consistent (delete_comment_row cid db).
Proof.
  intros [[] []] Hex. split.
  - constructor; simpl; try assumption.
    rewrite map_set_parent_null_ids. by apply NoDup_map_filter.
  - constructor; unfold task_exists, user_exists, comment_exists; simpl;
      try assumption.
    + apply List.Forall_forall. intros c' Hin.
      apply List.in_map_iff in Hin as (c & <- & Hin).
      apply List.filter_In in Hin as [Hin _]. rewrite set_parent_null_task.
      rewrite List.Forall_forall in fk_comment_task0. by apply fk_comment_task0.
    + apply List.Forall_forall. intros c' Hin.
      apply List.in_map_iff in Hin as (c & <- & Hin).
      apply List.filter_In in Hin as [Hin _]. rewrite set_parent_null_author.
      rewrite List.Forall_forall in fk_comment_author0. by apply fk_comment_author0.
    + pose proof (comments_after_delete
                    (λ c, (Comment.comment_id c =? cid)%Z) (task_comments db)
                    fk_comment_parent0) as H.
      simpl in H. rewrite (dead_single cid _ pk_task_comments0 Hex) in H.
      exact H.
Qed.

Lemma delete_comment_row_keeps_constraints_witness :
  consistent (delete_comment_row 201 Seed.db).
Proof.
  apply (delete_comment_row_keeps_constraints 201 Seed.db).
  - split.
    + constructor; apply (bool_decide_unpack _); vm_compute; reflexivity.
    + constructor; repeat constructor.
  - reflexivity.
Defined.

End ConstraintFacts.

(* ===================================================================== *)
(** ** The task slice of the client store *)
(* ===================================================================== *)

Section TaskSliceFacts.
Import AppStore.
Local Open Scope nat_scope.

Lemma includes_In ids id : includes ids id = true ↔ In id ids.
Proof.
  unfold includes. rewrite existsb_exists. split.
  - intros (x & Hin & ->%Z.eqb_eq). exact Hin.
  - intros H. exists id. split; [exact H | apply Z.eqb_refl].
Qed.

Lemma includes_not_In ids id : includes ids id = false ↔ ¬ In id ids.
Proof.
  rewrite <- includes_In. destruct (includes ids id); split; done.
Qed.

Lemma filter_none {A} (f : A → bool) (l : list A) :
  Forall (λ x, f x = false) l → List.filter f l = [].
Proof. induction 1 as [|x l Hx _ IH]; simpl; [done|]. by rewrite Hx. Qed.

(** X15. [add_task] puts the task in front and keeps one entry per id:
    afterwards exactly one entry carries the task's id, every task with
    another id is still listed, and a list with pairwise distinct ids
    stays that way. *)
Theorem add_task_keeps_one_entry_per_id (task : Task.t) (s : state) :
  hd_error (tasks (add_task task s)) = Some task
  ∧ length (List.filter (λ x, (Task.task_id x =? Task.task_id task)%Z)
                        (tasks (add_task task s))) = 1
  ∧ (∀ x, In x (tasks s) → Task.task_id x ≠ Task.task_id task →
          In x (tasks (add_task task s)))
  ∧ (NoDup (List.map Task.task_id (tasks s)) →
     NoDup (List.map Task.task_id (tasks (add_task task s)))).
Proof.
  unfold add_task. simpl. split; [reflexivity|]. split; [|split].
  - rewrite Z.eqb_refl. simpl. f_equal.
    rewrite filter_none; [reflexivity|].
    apply List.Forall_forall. intros x [_ Hx]%List.filter_In.
    by apply negb_true_iff in Hx.
  - intros x Hin Hne. right. apply List.filter_In. split; [exact Hin|].
    by apply negb_true_iff, Z.eqb_neq.
  - intros Hnd. apply NoDup_cons. split; [|by apply NoDup_map_filter].
    intros Hin. apply list_elem_of_In, List.in_map_iff in Hin as (x & Hid & Hin).
    apply List.filter_In in Hin as [_ Hx].
    apply negb_true_iff, Z.eqb_neq in Hx. congruence.
Qed.

Lemma merge_twice x u : Task.merge (Task.merge x u) u = Task.merge x u.
Proof.
  unfold Task.merge. simpl.
  destruct u as [i t d dd p st tg a c up cm]. simpl.
  destruct t, d, dd, p, st, tg, a, c, up, cm; reflexivity.
Qed.

Lemma merged_id u x : Task.task_id (merged u x) = Task.task_id x.
Proof.
  unfold merged. destruct (Z.eqb_spec (Task.task_id x) (Task.u_task_id u)) as [E|_];
    [simpl; congruence | reflexivity].
Qed.

Lemma merged_twice u x : merged u (merged u x) = merged u x.
Proof.
  unfold merged.
  destruct (Z.eqb_spec (Task.task_id x) (Task.u_task_id u)) as [E|N].
  - simpl. rewrite Z.eqb_refl. apply merge_twice.
  - by rewrite (proj2 (Z.eqb_neq _ _) N).
Qed.

(** X16. [update_task] changes fields, never the shape of the list: the
    ids stay in place, tasks with another id are untouched, applying the
    same update twice equals applying it once, and a [task_detail] that
    is one of the listed tasks is still one of them afterwards. *)
Theorem update_task_keeps_list_shape (u : Task.update) (s : state) :
  List.map Task.task_id (tasks (update_task u s)) = List.map Task.task_id (tasks s)
  ∧ (∀ x, In x (tasks s) → Task.task_id x ≠ Task.u_task_id u →
          In x (tasks (update_task u s)))
  ∧ update_task u (update_task u s) = update_task u s
  ∧ ((∀ d, task_detail s = Some d → In d (tasks s)) →
     ∀ d, task_detail (update_task u s) = Some d → In d (tasks (update_task u s))).
Proof.
  unfold update_task. simpl. fold (merged u). split; [|split; [|split]].
  - rewrite List.map_map. apply List.map_ext. intros x. apply merged_id.
  - intros x Hin Hne. apply List.in_map_iff. exists x. split; [|exact Hin].
    unfold merged. by rewrite (proj2 (Z.eqb_neq _ _) Hne).
  - f_equal.
    + rewrite List.map_map. apply List.map_ext. intros x. apply merged_twice.
    + destruct (task_detail s) as [d|]; [|reflexivity].
      destruct (Z.eqb_spec (Task.task_id d) (Task.u_task_id u)) as [E|N].
      * simpl. rewrite Z.eqb_refl. by rewrite merge_twice.
      * by rewrite (proj2 (Z.eqb_neq _ _) N).
  - intros Hd d'. destruct (task_detail s) as [d|]; [|discriminate].
    specialize (Hd d eq_refl).
    assert (E : (if (Task.task_id d =? Task.u_task_id u)%Z
                 then Some (Task.merge d u) else Some d) = Some (merged u d)).
    { unfold merged. by destruct (Task.task_id d =? Task.u_task_id u)%Z. }
    rewrite E. intros [= <-]. by apply List.in_map.
Qed.

(** X17. [remove_tasks_by_ids] removes the listed tasks everywhere: no
    listed id is left among the tasks or in the bulk selection,
    [task_detail] is cleared exactly when it shows a listed task, tasks
    that are not listed stay, and removing twice equals removing once. *)
Theorem remove_tasks_by_ids_clears_every_trace (task_ids : list Z) (s : state) :
  Forall (λ x, ¬ In (Task.task_id x) task_ids)
         (tasks (remove_tasks_by_ids task_ids s))
  ∧ Forall (λ id, ¬ In id task_ids)
           (bulk_selection (remove_tasks_by_ids task_ids s))
  ∧ (∀ d, task_detail (remove_tasks_by_ids task_ids s) = Some d →
          task_detail s = Some d ∧ ¬ In (Task.task_id d) task_ids)
  ∧ (∀ d, task_detail s = Some d → ¬ In (Task.task_id d) task_ids →
          task_detail (remove_tasks_by_ids task_ids s) = Some d)
  ∧ (∀ x, In x (tasks s) → ¬ In (Task.task_id x) task_ids →
          In x (tasks (remove_tasks_by_ids task_ids s)))
  ∧ remove_tasks_by_ids task_ids (remove_tasks_by_ids task_ids s)
    = remove_tasks_by_ids task_ids s.
Proof.
  unfold remove_tasks_by_ids. simpl. split; [|split; [|split; [|split; [|split]]]].
  - apply List.Forall_forall. intros x [_ Hx]%List.filter_In.
    by apply includes_not_In, negb_true_iff.
  - apply List.Forall_forall. intros x [_ Hx]%List.filter_In.
    by apply includes_not_In, negb_true_iff.
  - intros d'. destruct (task_detail s) as [d|]; [|discriminate].
    destruct (includes task_ids (Task.task_id d)) eqn:E; [discriminate|].
    intros [= <-]. split; [reflexivity | by apply includes_not_In].
  - intros d -> Hd. apply includes_not_In in Hd. by rewrite Hd.
  - intros x Hin Hx. apply List.filter_In. split; [exact Hin|].
    by apply negb_true_iff, includes_not_In.
  - f_equal.
    + apply filter_filter_implied. by intros x H.
    + destruct (task_detail s) as [d|]; [|reflexivity].
      destruct (includes task_ids (Task.task_id d)) eqn:E; [reflexivity|].
      by rewrite E.
    + apply filter_filter_implied. by intros x H.
Qed.

End TaskSliceFacts.

(* ===================================================================== *)
(** ** Task-list view: selection, filters, paging *)
(* ===================================================================== *)

Section TaskListViewFacts.
Import AppStore TaskListView.
Local Open Scope nat_scope.

Lemma filter_all {A} (f : A → bool) (l : list A) :
  Forall (λ x, f x = true) l → List.filter f l = l.
Proof. induction 1 as [|x l Hx _ IH]; simpl; [done|]. by rewrite Hx, IH. Qed.



(** X19. Selecting all visible tasks and confirming the bulk delete
    leaves an empty list and an empty selection; whatever was selected,
    after a successful bulk delete no deleted id is listed and nothing
    is selected. The delete is only sent for a non-empty selection. *)
Theorem bulk_delete_removes_selection (selection : list Z) (s : state) :
  bulk_selection (bulk_delete_succeeded selection s) = []
  ∧ Forall (λ x, ¬ In (Task.task_id x) selection)
           (tasks (bulk_delete_succeeded selection s))
  ∧ tasks (bulk_delete_succeeded
             (bulk_selection (handleSelectAllChange true s))
             (handleSelectAllChange true s)) = []
  ∧ (handleBulkDeleteConfirm s = None ↔ bulk_selection s = []).
Proof.
  split; [reflexivity|]. split; [|split].
  - unfold bulk_delete_succeeded, remove_tasks_by_ids. simpl.
    apply List.Forall_forall. intros x [_ Hx]%List.filter_In.
    by apply includes_not_In, negb_true_iff.
  - unfold bulk_delete_succeeded, remove_tasks_by_ids, handleSelectAllChange. simpl.
    apply filter_none, List.Forall_forall. intros x Hx.
    apply negb_false_iff, includes_In, List.in_map. exact Hx.
  - unfold handleBulkDeleteConfirm. destruct (bulk_selection s); simpl; split; done.
Qed.

(** X20. The select-all checkbox compares lengths only; it is right
    whenever the selection has no duplicates and holds only visible
    tasks: then [allSelected] implies that every visible task is
    selected. After select-all on a non-empty list it is set. *)
Theorem allSelected_sound (s : state) :
  (NoDup (bulk_selection s) →
   (∀ id, In id (bulk_selection s) → In id (List.map Task.task_id (tasks s))) →
   allSelected s = true →
   ∀ x, In x (tasks s) → In (Task.task_id x) (bulk_selection s))
  ∧ (tasks s ≠ [] → allSelected (handleSelectAllChange true s) = true).
Proof.
  split.
  - intros Hnd Hsub Hall x Hx.
    unfold allSelected in Hall.
    apply andb_true_iff in Hall as [_ Hlen]. apply Nat.eqb_eq in Hlen.
    assert (Hperm : bulk_selection s ≡ₚ List.map Task.task_id (tasks s)).
    { apply submseteq_length_Permutation.
      - apply NoDup_submseteq; [exact Hnd|].
        intros id Hid%list_elem_of_In. by apply list_elem_of_In, Hsub.
      - rewrite length_map. lia. }
    apply list_elem_of_In. rewrite Hperm. apply list_elem_of_In, List.in_map, Hx.
  - intros Hne. unfold allSelected, handleSelectAllChange. simpl.
    rewrite length_map, Nat.eqb_refl. destruct (tasks s); [done|reflexivity].
Qed.

Lemma allSelected_sound_witness :
  In 102%Z (bulk_selection (handleSelectAllChange true sample_state)).
Proof.
  apply (proj1 (allSelected_sound (handleSelectAllChange true sample_state)))
    with (x := sample_task 102 "Fix login bug").
  - apply (bool_decide_unpack _). vm_compute. reflexivity.
  - intros id H. exact H.
  - reflexivity.
  - simpl. tauto.
Defined.

Example allSelected_counts_only :
  allSelected (set_bulk_selection [7%Z; 8%Z] sample_state) = true.
Proof. reflexivity. Qed.

(** The effect of a toggle on a list, for an equality test that decides
    equality. *)
Lemma toggle_membership {A} (eqb : A → A → bool) (x : A) (l : list A) :
  (∀ a b, eqb a b = true ↔ a = b) →
  (In x (JsText.toggle eqb x l) ↔ ¬ In x l)
  ∧ (∀ y, y ≠ x → (In y (JsText.toggle eqb x l) ↔ In y l))
  ∧ (¬ In x l → JsText.toggle eqb x (JsText.toggle eqb x l) = l).
Proof.
  intros Heq. unfold JsText.toggle.
  assert (Hex : ∀ k, existsb (eqb x) k = true ↔ In x k).
  { intros k. rewrite existsb_exists. split.
    - intros (y & Hy & ->%Heq). exact Hy.
    - intros H. exists x. split; [exact H | by apply Heq]. }
  destruct (existsb (eqb x) l) eqn:E.
  - apply Hex in E. split; [|split].
    + split; [|done]. intros [_ H]%List.filter_In.
      apply negb_true_iff in H. assert (eqb x x = true) by (by apply Heq). congruence.
    + intros y Hne. rewrite List.filter_In. split; [tauto|].
      intros H. split; [exact H|]. apply negb_true_iff.
      destruct (eqb y x) eqn:Ey; [|done]. by apply Heq in Ey.
    + done.
  - assert (Hnot : ¬ In x l) by (intros H; apply Hex in H; congruence).
    split; [|split].
    + split; [done|]. intros _. apply List.in_or_app. right. by left.
    + intros y Hne. rewrite List.in_app_iff. simpl. split; [|tauto].
      intros [H|[H|[]]]; [exact H | congruence].
    + intros _.
      assert (E2 : existsb (eqb x) (l ++ [x]) = true).
      { apply Hex, List.in_or_app. right. by left. }
      rewrite E2, List.filter_app. simpl.
      assert (Hxx : eqb x x = true) by (by apply Heq). rewrite Hxx. simpl.
      rewrite app_nil_r. apply filter_all, List.Forall_forall.
      intros y Hy. apply negb_true_iff. destruct (eqb y x) eqn:Ey; [|done].
      apply Heq in Ey. congruence.
Qed.

Lemma status_eqb_eq a b : status_eqb a b = true ↔ a = b.
Proof. destruct a, b; simpl; split; done. Qed.

Lemma priority_eqb_eq a b : priority_eqb a b = true ↔ a = b.
Proof. destruct a, b; simpl; split; done. Qed.

(** X21. Each filter toggle flips the membership of the toggled value
    in its own filter and of no other value, leaves the other filter
    dimensions alone and returns to page 1 without touching the other
    paging fields. *)
Theorem filter_toggles_flip_one_value (s : state) :
  (∀ x, let s' := toggleStatusFilter x s in
        (In x (status (filters s')) ↔ ¬ In x (status (filters s)))
        ∧ (∀ y, y ≠ x → (In y (status (filters s')) ↔ In y (status (filters s))))
        ∧ priority (filters s') = priority (filters s)
        ∧ tags (filters s') = tags (filters s)
        ∧ assignees (filters s') = assignees (filters s)
        ∧ current_page (pagination s') = 1%Z
        ∧ page_size (pagination s') = page_size (pagination s)
        ∧ tasks s' = tasks s)
  ∧ (∀ x, let s' := toggleTagFilter x s in
        (In x (tags (filters s')) ↔ ¬ In x (tags (filters s)))
        ∧ (∀ y, y ≠ x → (In y (tags (filters s')) ↔ In y (tags (filters s))))
        ∧ status (filters s') = status (filters s)
        ∧ priority (filters s') = priority (filters s)
        ∧ assignees (filters s') = assignees (filters s)
        ∧ current_page (pagination s') = 1%Z
        ∧ page_size (pagination s') = page_size (pagination s)
        ∧ tasks s' = tasks s)
  ∧ (∀ x, let s' := togglePriorityFilter x s in
        (In x (priority (filters s')) ↔ ¬ In x (priority (filters s)))
        ∧ current_page (pagination s') = 1%Z)
  ∧ (∀ x, let s' := toggleAssigneeFilter x s in
        (In x (assignees (filters s')) ↔ ¬ In x (assignees (filters s)))
        ∧ current_page (pagination s') = 1%Z).
Proof.
  split; [|split; [|split]]; intros x; simpl.
  - destruct (toggle_membership status_eqb x (status (filters s)) status_eqb_eq)
      as (H1 & H2 & _). auto 10.
  - destruct (toggle_membership String.eqb x (tags (filters s)) String.eqb_eq)
      as (H1 & H2 & _). auto 10.
  - destruct (toggle_membership priority_eqb x (priority (filters s)) priority_eqb_eq)
      as (H1 & _). auto.
  - destruct (toggle_membership Z.eqb x (assignees (filters s)) Z.eqb_eq)
      as (H1 & _). auto.
Qed.

(** X22. [handlePageChange] keeps the page between 1 and the page
    count: a request outside that range changes nothing, a request
    inside it becomes the current page, and the range property survives
    every sequence of page changes. *)
Theorem page_change_stays_in_range (requests : list Z) (s : state) :
  page_in_range s →
  page_in_range (fold_left (λ st n, handlePageChange n st) requests s)
  ∧ (∀ n, (n < 1 ∨ total_pages (pagination s) < n)%Z → handlePageChange n s = s)
  ∧ (∀ n, (1 ≤ n ≤ total_pages (pagination s))%Z →
          current_page (pagination (handlePageChange n s)) = n
          ∧ total_pages (pagination (handlePageChange n s)) = total_pages (pagination s)).
Proof.
  intros H. split; [|split].
  - revert s H. induction requests as [|n l IH]; intros s H; simpl; [exact H|].
    apply IH. unfold handlePageChange, page_in_range in *.
    destruct (Z.leb_spec 1 n), (Z.leb_spec n (total_pages (pagination s)));
      simpl; lia.
  - intros n Hn. unfold handlePageChange.
    destruct (Z.leb_spec 1 n), (Z.leb_spec n (total_pages (pagination s)));
      simpl; try reflexivity; lia.
  - intros n Hn. unfold handlePageChange.
    destruct (Z.leb_spec 1 n), (Z.leb_spec n (total_pages (pagination s)));
      simpl; first [done | lia].
Qed.

Lemma page_change_stays_in_range_witness :
  page_in_range
    (fold_left (λ st n, handlePageChange n st) [2; 3; 4; 0; 2]%Z sample_state).
Proof.
  apply (page_change_stays_in_range [2; 3; 4; 0; 2]%Z sample_state).
  unfold page_in_range. simpl. lia.
Defined.

End TaskListViewFacts.

(* ===================================================================== *)
(** ** Subscriptions and comments in the client store *)
(* ===================================================================== *)

Section SubscriptionFacts.
Import AppStore.

Lemma subscribe_keeps_distinct id w :
  NoDup (subscribed_task_ids w) → NoDup (subscribed_task_ids (subscribe_task_id id w)).
Proof.
  intros H. unfold subscribe_task_id.
  destruct (includes (subscribed_task_ids w) id) eqn:E; simpl; [exact H|].
  apply NoDup_app. split; [exact H|]. split; [|apply NoDup_singleton].
  intros x Hx ->%list_elem_of_singleton.
  apply includes_not_In in E. by apply E, list_elem_of_In.
Qed.

Lemma unsubscribe_keeps_distinct id w :
  NoDup (subscribed_task_ids w) → NoDup (subscribed_task_ids (unsubscribe_task_id id w)).
Proof.
  intros H. unfold unsubscribe_task_id.
  destruct (includes (subscribed_task_ids w) id); simpl; [|exact H].
  pose proof (NoDup_map_filter (λ x : Z, x) (λ x, negb (x =? id)%Z) _
                (eq_ind_r NoDup H (List.map_id _))) as Hf.
  by rewrite List.map_id in Hf.
Qed.

(** X23. The list of subscribed task ids never holds an id twice,
    whatever sequence of subscribe, unsubscribe and clear runs;
    subscribing makes the id present, unsubscribing makes it absent, and
    subscribing to a new id and unsubscribing again restores the slice. *)
Theorem subscriptions_stay_distinct (acts : list ws_action) (w : WebsocketState) :
  NoDup (subscribed_task_ids w) →
  NoDup (subscribed_task_ids (fold_left ws_dispatch acts w))
  ∧ (∀ id, In id (subscribed_task_ids (subscribe_task_id id w))
           ∧ ¬ In id (subscribed_task_ids (unsubscribe_task_id id w)))
  ∧ (∀ id, ¬ In id (subscribed_task_ids w) →
           unsubscribe_task_id id (subscribe_task_id id w) = w).
Proof.
  intros H. split; [|split].
  - revert w H. induction acts as [|a l IH]; intros w H; simpl; [exact H|].
    apply IH. destruct a; simpl.
    + by apply subscribe_keeps_distinct.
    + by apply unsubscribe_keeps_distinct.
    + apply NoDup_nil_2.
  - intros id. split.
    + unfold subscribe_task_id.
      destruct (includes (subscribed_task_ids w) id) eqn:E; simpl.
      * by apply includes_In.
      * apply List.in_or_app. right. by left.
    + unfold unsubscribe_task_id.
      destruct (includes (subscribed_task_ids w) id) eqn:E; simpl.
      * intros [_ Hx]%List.filter_In. by rewrite Z.eqb_refl in Hx.
      * by apply includes_not_In.
  - intros id Hnot. unfold subscribe_task_id.
    rewrite (proj2 (includes_not_In _ _) Hnot). simpl.
    unfold unsubscribe_task_id. simpl.
    assert (E : includes (subscribed_task_ids w ++ [id]) id = true).
    { apply includes_In, List.in_or_app. right. by left. }
    rewrite E, List.filter_app. simpl. rewrite Z.eqb_refl. simpl.
    rewrite app_nil_r, filter_all; [by destruct w|].
    apply List.Forall_forall. intros x Hx. apply negb_true_iff, Z.eqb_neq.
    intros ->. contradiction.
Qed.

Lemma subscriptions_stay_distinct_witness :
  NoDup (subscribed_task_ids
           (fold_left ws_dispatch
              [Subscribe 101; Subscribe 102; Subscribe 101; Unsubscribe 102]%Z
              websocket_initial)).
Proof.
  apply (subscriptions_stay_distinct
           [Subscribe 101; Subscribe 102; Subscribe 101; Unsubscribe 102]%Z
           websocket_initial).
  apply NoDup_nil_2.
Defined.

(** X24. The comment actions keep [task_detail.comments] equal to the
    store's comment list: [update_comment] and [remove_comment]
    establish the equality from any state, [add_comment] succeeds and
    keeps it when it held before; on a [task_detail] without a comments
    array [add_comment] has no result. *)
Theorem comment_actions_keep_detail_in_sync
    (c : Comment.t) (u : Comment.update) (cid : Z) (s : state) :
  comments_synced (update_comment u s)
  ∧ comments_synced (remove_comment cid s)
  ∧ (comments_synced s →
     ∃ s', add_comment c s = Some s'
           ∧ comments_synced s'
           ∧ comments s' = (comments s ++ [c])%list)
  ∧ (∀ d, task_detail s = Some d → Task.comments d = None →
          add_comment c s = None).
Proof.
  unfold comments_synced, update_comment, remove_comment, add_comment.
  split; [|split; [|split]].
  - simpl. by destruct (task_detail s).
  - simpl. by destruct (task_detail s).
  - destruct (task_detail s) as [d|]; simpl.
    + intros ->. eexists. split; [reflexivity|]. simpl. done.
    + intros _. eexists. split; [reflexivity|]. simpl. done.
  - intros d -> ->. reflexivity.
Qed.

(** X25. [remove_comment] drops the comment and nothing else: no entry
    with the id is left, every other comment is still listed exactly as
    it was, so a reply keeps its [parent_comment_id] although no
    comment with that id remains in the store. *)
Theorem remove_comment_keeps_replies (cid : Z) (s : state) :
  Forall (λ c, Comment.comment_id c ≠ cid) (comments (remove_comment cid s))
  ∧ (∀ reply, In reply (comments s) →
       Comment.comment_id reply ≠ cid →
       In reply (comments (remove_comment cid s)))
  ∧ (∀ reply, In reply (comments (remove_comment cid s)) →
       In reply (comments s))
  ∧ (∀ reply, In reply (comments s) →
       Comment.comment_id reply ≠ cid →
       Comment.parent_comment_id reply = Some cid →
       ∃ r, In r (comments (remove_comment cid s))
            ∧ Comment.parent_comment_id r = Some cid
            ∧ ¬ ∃ p, In p (comments (remove_comment cid s))
                     ∧ Comment.comment_id p = cid).
Proof.
  unfold remove_comment. simpl.
  assert (Hgone : Forall (λ c, Comment.comment_id c ≠ cid)
            (List.filter (λ c, negb (Comment.comment_id c =? cid)%Z) (comments s))).
  { apply List.Forall_forall. intros c [_ Hc]%List.filter_In.
    by apply negb_true_iff, Z.eqb_neq in Hc. }
  assert (Hstay : ∀ reply, In reply (comments s) →
            Comment.comment_id reply ≠ cid →
            In reply (List.filter (λ c, negb (Comment.comment_id c =? cid)%Z) (comments s))).
  { intros r Hin Hne. apply List.filter_In. split; [exact Hin|].
    by apply negb_true_iff, Z.eqb_neq. }
  split; [exact Hgone|]. split; [exact Hstay|]. split.
  - by intros r [Hin _]%List.filter_In.
  - intros reply Hin Hne Hp. exists reply. split; [by apply Hstay|].
    split; [exact Hp|]. intros (p & Hpin & Hpid).
    rewrite List.Forall_forall in Hgone. by apply (Hgone p Hpin).
Qed.

Lemma remove_comment_keeps_replies_witness :
  ∃ r, In r (comments (remove_comment 201
                         (set_comments [sample_comment 201 None;
                                        sample_comment 202 (Some 201%Z)]
                                       sample_state)))
       ∧ Comment.parent_comment_id r = Some 201%Z
       ∧ ¬ ∃ p, In p (comments (remove_comment 201
                         (set_comments [sample_comment 201 None;
                                        sample_comment 202 (Some 201%Z)]
                                       sample_state)))
                ∧ Comment.comment_id p = 201%Z.
Proof.
  apply (remove_comment_keeps_replies 201
           (set_comments [sample_comment 201 None; sample_comment 202 (Some 201%Z)]
                         sample_state))
    with (reply := sample_comment 202 (Some 201%Z)).
  - simpl. tauto.
  - discriminate.
  - reflexivity.
Defined.

End SubscriptionFacts.

(* ===================================================================== *)
(** ** Registration form and registration handler together *)
(* ===================================================================== *)

Section RegisterFormFacts.
Import RegisterForm.
Local Open Scope nat_scope.

Lemma length_zero_empty s : (String.length s =? 0) = true ↔ s = "".
Proof. destruct s; simpl; split; done. Qed.

(** X26. Whatever the registration form posts passes the handler's
    presence check: the name and the address are trimmed and not empty,
    the password has at least 8 characters with a lower-case letter, an
    upper-case letter and a digit, and [register] never answers such a
    request with "email, password and name are required". *)
Theorem register_form_posts_complete_requests
    (validateEmail : string → bool)
    (name email password confirmPassword : string)
    (req : Auth.register_body) (e : Auth.env) (db : Db.database) :
  handleFormSubmit validateEmail name email password confirmPassword = Some req →
  req = Auth.mkBody (Some (Js.trim email)) (Some password) (Some (Js.trim name))
  ∧ Js.trim name ≠ "" ∧ Js.trim email ≠ ""
  ∧ validateEmail (Js.trim email) = true
  ∧ 8 ≤ String.length password
  ∧ test_class is_lower password = true
  ∧ test_class is_upper password = true
  ∧ test_class is_digit password = true
  ∧ confirmPassword = password
  ∧ fst (Auth.register e req db)
    ≠ Auth.mkResponse 400 (Auth.ErrorBody "email, password and name are required").
Proof.
  unfold handleFormSubmit, validateInputs, validatePassword. cbn [existsb
    e_name e_email e_password e_confirmPassword].
  destruct (String.length (Js.trim name) =? 0) eqn:N; [discriminate|].
  destruct (String.length (Js.trim email) =? 0) eqn:E; [discriminate|].
  destruct (validateEmail (Js.trim email)) eqn:V; [|discriminate].
  destruct (String.length password =? 0) eqn:P0; [discriminate|].
  destruct (String.length password <? 8) eqn:P8; [discriminate|].
  destruct (test_class is_lower password) eqn:L; [|discriminate].
  destruct (test_class is_upper password) eqn:U; [|discriminate].
  destruct (test_class is_digit password) eqn:D; [|discriminate].
  cbn [negb is_error orb].
  destruct (String.length confirmPassword =? 0) eqn:C0; [discriminate|].
  destruct (String.eqb_spec password confirmPassword) as [Heq|Hne]; [|discriminate].
  cbn [negb is_error orb]. intros [= <-].
  assert (Hn : Js.trim name ≠ "").
  { intros H. apply length_zero_empty in H. congruence. }
  assert (He : Js.trim email ≠ "").
  { intros H. apply length_zero_empty in H. congruence. }
  assert (Hp : password ≠ "").
  { intros H. apply length_zero_empty in H. congruence. }
  repeat (split; [first [reflexivity | assumption | done
                        | by apply Nat.ltb_ge ]|]).
  unfold Auth.register. cbn [Auth.email Auth.password Auth.name Auth.missing].
  apply truthy_nonempty in Hn, He, Hp. rewrite Hn, He, Hp. cbn [negb orb].
  destruct (0 <? _); [discriminate|].
  destruct (Db.insert_user _ _); discriminate.
Qed.

Lemma register_form_posts_complete_requests_witness :
  fst (Auth.register Auth.sample_env
         (Auth.mkBody (Some "frank@example.com") (Some "Secret123") (Some "Frank"))
         Seed.db)
  ≠ Auth.mkResponse 400 (Auth.ErrorBody "email, password and name are required").
Proof.
  apply (register_form_posts_complete_requests (λ _, true)
           " Frank " "frank@example.com " "Secret123" "Secret123"
           (Auth.mkBody (Some "frank@example.com") (Some "Secret123") (Some "Frank"))
           Auth.sample_env Seed.db).
  reflexivity.
Defined.

Example weak_password_messages :
  (validatePassword "Ab1", validatePassword "ABCDEFG1", validatePassword "abcdefg1",
   validatePassword "Abcdefgh", validatePassword "Abcdefg1")
  = (Some "Password must be at least 8 characters long.",
     Some "Password must include a lowercase letter.",
     Some "Password must include an uppercase letter.",
     Some "Password must include a number.",
     None).
Proof. reflexivity. Qed.

End RegisterFormFacts.

(* ===================================================================== *)
(** ** Marking notifications one by one and all at once *)
(* ===================================================================== *)

Section MarkAllFacts.
Import Store NotificationBatch.

Lemma mark_listed_step id ids n :
  mark_listed ids (mark id n) = mark_listed (id :: ids) n.
Proof.
  unfold mark_listed, mark. simpl.
  destruct (notification_id n =? id)%Z; simpl.
  - by destruct (existsb _ ids).
  - reflexivity.
Qed.

Lemma mark_each_notifications ids : ∀ state,
  notifications (mark_each ids state)
  = List.map (mark_listed ids) (notifications state).
Proof.
  induction ids as [|id ids IH]; intros state; simpl.
  - symmetry. unfold mark_listed. simpl. apply List.map_id.
  - unfold mark_each in *. simpl. rewrite IH. unfold mark_as_read. simpl.
    fold (mark id). rewrite List.map_map. apply List.map_ext.
    intros n. apply mark_listed_step.
Qed.

Lemma mark_each_consistent ids : ∀ state,
  counter_consistent state → counter_consistent (mark_each ids state).
Proof.
  induction ids as [|id ids IH]; intros state H; [exact H|].
  apply IH, mark_as_read_consistent.
Qed.

(** X27. Marking every notification of the store read, one id after the
    other, ends in the same store as [mark_all_as_read], when the
    counter agreed with the list to begin with; and after
    [mark_all_as_read] a further [mark_as_read] changes nothing. *)
Theorem mark_each_equals_mark_all (state : NotificationsState) :
  counter_consistent state →
  mark_each (List.map notification_id (notifications state)) state
  = mark_all_as_read state
  ∧ ∀ id, mark_as_read id (mark_all_as_read state) = mark_all_as_read state.
Proof.
  intros Hc.
  assert (Hall : ∀ l ids,
            (∀ n, In n l → In (notification_id n) ids) →
            List.map (mark_listed ids) l = List.map with_is_read_true l).
  { intros l ids Hin. apply List.map_ext_in. intros n Hn. unfold mark_listed.
    assert (existsb (Z.eqb (notification_id n)) ids = true) as ->; [|done].
    apply existsb_exists. exists (notification_id n).
    split; [by apply Hin | apply Z.eqb_refl]. }
  split.
  - set (ids := List.map notification_id (notifications state)).
    pose proof (mark_each_notifications ids state) as Hn.
    rewrite (Hall _ ids) in Hn by (intros n Hin; by apply List.in_map).
    pose proof (mark_each_consistent ids state Hc) as Hu.
    unfold counter_consistent in Hu. rewrite Hn, count_unread_all_read in Hu.
    destruct (mark_each ids state) as [l u]. simpl in *. subst.
    reflexivity.
  - intros id. unfold mark_as_read, mark_all_as_read. simpl.
    assert (E : List.map
                  (λ n, if (notification_id n =? id)%Z then with_is_read_true n else n)
                  (List.map with_is_read_true (notifications state))
                = List.map with_is_read_true (notifications state)).
    { rewrite List.map_map. apply List.map_ext. intros n. simpl.
      by destruct (notification_id n =? id)%Z. }
    by rewrite E, count_unread_all_read.
Qed.

Lemma mark_each_equals_mark_all_witness :
  mark_each [301; 303]%Z (mkState [sample_unread; sample_read] 1)
  = mark_all_as_read (mkState [sample_unread; sample_read] 1).
Proof.
  apply (mark_each_equals_mark_all (mkState [sample_unread; sample_read] 1)).
  reflexivity.
Defined.

End MarkAllFacts.
